(** * The Kafka broker RPC client ([src/broker/index.ts])

    A shallow embedding of the [Broker] class: its lifecycle state, the
    re-authentication policy, the connect path, the internal send path,
    version negotiation and the request pre/post-processing of [fetch],
    [joinGroup] and [listOffsets].

    JavaScript objects used as dictionaries are [gmap]s, 64-bit [Long]
    values are integers with their wrap-around written out, and every
    [async] method is a computation in a state-and-exception monad whose
    state holds the broker's fields, the connection it owns and the log of
    calls made on the collaborators. *)

From Stdlib Require Import ZArith Lia DecimalString.
From stdpp Require Import gmap strings list sorting.

Local Open Scope string_scope.
Local Open Scope Z_scope.
Local Open Scope list_scope.

(** ** 64-bit integers *)

(** Modelled from the spec: the [Long] class of [utils/long.ts] is
    missing. The spec gives [sessionLifetime] as a "64-bit ms duration" and asks
    for "real 64-bit integers"; a [Long] is a signed 64-bit integer, every
    operation reduces its result into the signed range, and an operand given
    as a plain number is converted with [fromValue] first. *)
Module Long.

Definition wrap (z : Z) : Z := (z + 2 ^ 63) mod 2 ^ 64 - 2 ^ 63.

Definition inRange (z : Z) : Prop := - 2 ^ 63 <= z < 2 ^ 63.

Definition ZERO : Z := 0.
Definition fromValue (z : Z) : Z := wrap z.
Definition add (a b : Z) : Z := wrap (a + fromValue b).
Definition multiply (a b : Z) : Z := wrap (a * fromValue b).
(** Division truncates towards zero; the only divisor the broker uses is
    the constant 1000000. *)
Definition divide (a b : Z) : Z := wrap (Z.quot a (fromValue b)).
Definition equals (a b : Z) : bool := a =? b.
Definition greaterThanOrEqual (a b : Z) : bool := b <=? a.

End Long.

(** ** The monotonic clock *)

(** A reading of [process.hrtime()]: whole seconds and the remaining
    nanoseconds. *)
Record HrTime := { seconds : Z; nanos : Z }.

(** [process.hrtime(prev)]: the time elapsed since the earlier reading
    [prev], again as a (seconds, nanoseconds) pair; a negative nanosecond
    difference borrows one second. *)
Definition hrtime_since (now prev : HrTime) : Z * Z :=
  let sec := seconds now - seconds prev in
  let nsec := nanos now - nanos prev in
  if nsec <? 0 then (sec - 1, nsec + 1000000000) else (sec, nsec).

(** Readings the platform can produce. *)
Definition wf_hrtime (h : HrTime) : Prop := 0 <= nanos h < 1000000000.

Definition total_nanos (h : HrTime) : Z := seconds h * 1000000000 + nanos h.

(** Whole milliseconds between two readings. *)
Definition elapsedMillis (now prev : HrTime) : Z :=
  (total_nanos now - total_nanos prev) / 1000000.

(** ** Broker and connection state *)

Record VersionRange := { minVersion : Z; maxVersion : Z }.

(** The table built by [apiVersions()]: API key to supported range. *)
Abbreviation Versions := (gmap Z VersionRange).

(** The two values [lookupRequest] takes: the module-level sentinel, or the
    closure [lookup(versions)]. *)
Inductive Lookup :=
| notInitializedLookup
| lookup (versions : Versions).

(** The fields of [this.connection] the broker reads. *)
Record Connection := {
  connected : bool;
  sasl : bool;
  connectionTimeout : Z;
  host : string;
  port : Z
}.

Record Broker := {
  nodeId : option Z;
  versions : option Versions;
  authenticationTimeout : Z;
  reauthenticationThreshold : Z;
  allowAutoTopicCreation : bool;
  supportAuthenticationProtocol : option bool;
  authenticatedAt : option HrTime;
  sessionLifetime : Z;
  lookupRequest : Lookup
}.

Definition set_authenticatedAt (a : option HrTime) (b : Broker) : Broker :=
  {| nodeId := nodeId b; versions := versions b;
     authenticationTimeout := authenticationTimeout b;
     reauthenticationThreshold := reauthenticationThreshold b;
     allowAutoTopicCreation := allowAutoTopicCreation b;
     supportAuthenticationProtocol := supportAuthenticationProtocol b;
     authenticatedAt := a;
     sessionLifetime := sessionLifetime b;
     lookupRequest := lookupRequest b |}.

Definition set_versions (v : option Versions) (b : Broker) : Broker :=
  {| nodeId := nodeId b; versions := v;
     authenticationTimeout := authenticationTimeout b;
     reauthenticationThreshold := reauthenticationThreshold b;
     allowAutoTopicCreation := allowAutoTopicCreation b;
     supportAuthenticationProtocol := supportAuthenticationProtocol b;
     authenticatedAt := authenticatedAt b;
     sessionLifetime := sessionLifetime b;
     lookupRequest := lookupRequest b |}.

Definition set_lookupRequest (l : Lookup) (b : Broker) : Broker :=
  {| nodeId := nodeId b; versions := versions b;
     authenticationTimeout := authenticationTimeout b;
     reauthenticationThreshold := reauthenticationThreshold b;
     allowAutoTopicCreation := allowAutoTopicCreation b;
     supportAuthenticationProtocol := supportAuthenticationProtocol b;
     authenticatedAt := authenticatedAt b;
     sessionLifetime := sessionLifetime b;
     lookupRequest := l |}.

Definition set_supportAuthenticationProtocol (s : option bool) (b : Broker) : Broker :=
  {| nodeId := nodeId b; versions := versions b;
     authenticationTimeout := authenticationTimeout b;
     reauthenticationThreshold := reauthenticationThreshold b;
     allowAutoTopicCreation := allowAutoTopicCreation b;
     supportAuthenticationProtocol := s;
     authenticatedAt := authenticatedAt b;
     sessionLifetime := sessionLifetime b;
     lookupRequest := lookupRequest b |}.

Definition set_sessionLifetime (l : Z) (b : Broker) : Broker :=
  {| nodeId := nodeId b; versions := versions b;
     authenticationTimeout := authenticationTimeout b;
     reauthenticationThreshold := reauthenticationThreshold b;
     allowAutoTopicCreation := allowAutoTopicCreation b;
     supportAuthenticationProtocol := supportAuthenticationProtocol b;
     authenticatedAt := authenticatedAt b;
     sessionLifetime := l;
     lookupRequest := lookupRequest b |}.

(** ** The re-authentication policy *)

(** The milliseconds since [prev], computed as the source does: the seconds
    times 1000 plus the nanoseconds divided by 1000000, in [Long]
    arithmetic. *)
Definition millisSince (now prev : HrTime) : Z :=
  let '(secondsSince, remainingNanosSince) := hrtime_since now prev in
  Long.add
    (Long.multiply (Long.fromValue secondsSince) 1000)
    (Long.divide (Long.fromValue remainingNanosSince) 1000000).

(** [Broker[PRIVATE.SHOULD_REAUTHENTICATE]], with the clock reading taken
    at the call as an argument. *)
Definition shouldReauthenticate (now : HrTime) (b : Broker) : bool :=
  if Long.equals (sessionLifetime b) Long.ZERO then false
  else match authenticatedAt b with
       | None => true
       | Some at_ =>
           let reauthenticateAt :=
             Long.add (millisSince now at_) (reauthenticationThreshold b) in
           Long.greaterThanOrEqual reauthenticateAt (sessionLifetime b)
       end.

(** [Broker.isConnected]. *)
Definition isConnected (now : HrTime) (c : Connection) (b : Broker) : bool :=
  let isAuthenticated :=
    match authenticatedAt b with
    | None => false
    | Some _ => negb (shouldReauthenticate now b)
    end in
  if sasl c then connected c && isAuthenticated else connected c.

(** The [Broker] constructor: absent options take their defaults,
    [authenticatedAt] starts as [null], [sessionLifetime] as [Long.ZERO] and
    [lookupRequest] as the sentinel. *)
Record BrokerOptions := {
  opt_nodeId : option Z;
  opt_versions : option Versions;
  opt_authenticationTimeout : option Z;
  opt_reauthenticationThreshold : option Z;
  opt_allowAutoTopicCreation : option bool;
  opt_supportAuthenticationProtocol : option bool
}.

Definition new_Broker (o : BrokerOptions) : Broker :=
  {| nodeId := opt_nodeId o;
     versions := opt_versions o;
     authenticationTimeout := default 1000 (opt_authenticationTimeout o);
     reauthenticationThreshold := default 10000 (opt_reauthenticationThreshold o);
     allowAutoTopicCreation := default true (opt_allowAutoTopicCreation o);
     supportAuthenticationProtocol := opt_supportAuthenticationProtocol o;
     authenticatedAt := None;
     sessionLifetime := Long.ZERO;
     lookupRequest := notInitializedLookup |}.

(** ** Errors, requests and responses *)

(** A thrown JavaScript error, with the properties the broker inspects;
    [None] is [undefined]. *)
Module KafkaJSError.
Record t := {
  name : string;
  type : option string;
  message : string;
  memberId : option string
}.
End KafkaJSError.

(** [new Error(msg)] and [new KafkaJSNonRetriableError(msg)]. *)
Definition JsError (msg : string) : KafkaJSError.t :=
  {| KafkaJSError.name := "Error"; KafkaJSError.type := None;
     KafkaJSError.message := msg; KafkaJSError.memberId := None |}.

Definition KafkaJSNonRetriableError (msg : string) : KafkaJSError.t :=
  {| KafkaJSError.name := "KafkaJSNonRetriableError"; KafkaJSError.type := None;
     KafkaJSError.message := msg; KafkaJSError.memberId := None |}.

Definition JsTypeError (msg : string) : KafkaJSError.t :=
  {| KafkaJSError.name := "TypeError"; KafkaJSError.type := None;
     KafkaJSError.message := msg; KafkaJSError.memberId := None |}.

(** The result of a call that may throw. *)
Inductive Outcome (A : Type) :=
| Return (a : A)
| Throw (e : KafkaJSError.t).
Arguments Return {A} a.
Arguments Throw {A} e.

(** The parameter object of [joinGroup], defaults applied. *)
Module JoinGroup.
Record Params := {
  groupId : string;
  sessionTimeout : Z;
  rebalanceTimeout : Z;
  memberId : string;
  protocolType : string;
  groupProtocols : list (string * string)
}.

Definition with_memberId (m : string) (p : Params) : Params :=
  {| groupId := groupId p; sessionTimeout := sessionTimeout p;
     rebalanceTimeout := rebalanceTimeout p; memberId := m;
     protocolType := protocolType p; groupProtocols := groupProtocols p |}.
End JoinGroup.

(** The topic list of [fetch] and the parameter object of its request;
    [maxBytesTotal] is the request's own [maxBytes]. *)
Module Fetch.
Record Partition := {
  partition : Z;
  fetchOffset : string;
  maxBytes : Z
}.
Record Topic := {
  topic : string;
  partitions : list Partition
}.
Record Params := {
  replicaId : option Z;
  isolationLevel : option Z;
  maxWaitTime : Z;
  minBytes : Z;
  maxBytesTotal : Z;
  topics : list Topic;
  rackId : string
}.
End Fetch.

(** JavaScript values found in a decoded partition record. *)
#[warnings="-register-all"]
Inductive Value :=
| VUndefined
| VNull
| VBoolean (b : bool)
| VNumber (n : Z)
| VString (s : string)
| VArray (elements : list Value).

(** [ToBoolean]: what [v ? a : b] tests. *)
Definition truthy (v : Value) : bool :=
  match v with
  | VUndefined | VNull => false
  | VBoolean b => b
  | VNumber n => negb (n =? 0)
  | VString s => negb (String.eqb s "")
  | VArray _ => true
  end.

(** A decoded partition record: property name to value. *)
Abbreviation PartitionData := (gmap string Value).

Module ListOffsets.
Record TopicResponse := {
  topic : string;
  partitions : list PartitionData
}.
Record Params := {
  replicaId : option Z;
  isolationLevel : option Z;
  topics : list (string * list (Z * Z))
}.
End ListOffsets.

Module ApiVersion.
(** One entry of [response.apiVersions]. *)
Record t := { apiKey : Z; minVersion : Z; maxVersion : Z }.
End ApiVersion.

Inductive Payload :=
| ApiVersionsPayload
| JoinGroupPayload (p : JoinGroup.Params)
| FetchPayload (p : Fetch.Params)
| ListOffsetsPayload (p : ListOffsets.Params).

(** Modelled from the spec: the per-API request codecs
    ([protocol/requests/*]) are missing. By the RequestFactory contract a
    factory, given its
    parameter object, returns a record with [apiKey] and [apiVersion]; the
    parameters are kept as the [payload], and [requestTimeout] is the extra
    property [apiVersions()] adds. *)
Module Request.
Record t := {
  apiKey : Z;
  apiVersion : Z;
  payload : Payload;
  requestTimeout : option Z
}.
End Request.

(** A decoded response: the properties the broker reads. *)
Module Response.
Record t := {
  throttleTime : Z;
  apiVersions : list ApiVersion.t;
  responses : list ListOffsets.TopicResponse
}.

Definition with_responses (r : list ListOffsets.TopicResponse) (x : t) : t :=
  {| throttleTime := throttleTime x; apiVersions := apiVersions x;
     responses := r |}.
End Response.

(** ** State and effects *)

(** The calls the broker makes on its collaborators, in order. *)
Inductive Call :=
| CallLockAcquire
| CallLockRelease
| CallConnect
| CallDisconnect
| CallSend (r : Request.t)
| CallAuthenticate (v : Versions) (supportAuthenticationProtocol : option bool).

Record State := {
  broker : Broker;
  connection : Connection;
  clock : HrTime;
  calls : list Call
}.

(** A collaborator's reaction to a call: given the calls so far, the
    connection and the clock, it completes or throws, and decides whether
    the transport is up afterwards and what the clock then reads. The
    connection's configuration ([sasl], [connectionTimeout], [host],
    [port]) is fixed when the connection is built. *)
Definition Reaction (A : Type) : Type :=
  list Call -> Connection -> HrTime -> Outcome A * bool * HrTime.

Definition set_connected (up : bool) (c : Connection) : Connection :=
  {| connected := up; sasl := sasl c;
     connectionTimeout := connectionTimeout c;
     host := host c; port := port c |}.

(** Everything the broker imports or is handed: the protocol tables, the
    transport, the lock, the SASL authenticator and the shuffle. *)
Record Env := {
  (** [apiKeys] *)
  apiKeys_ApiVersions : Z;
  apiKeys_Fetch : Z;
  apiKeys_JoinGroup : Z;
  apiKeys_ListOffsets : Z;
  apiKeys_SaslAuthenticate : Z;
  (** [requests.X.versions.map(Number)]: the versions each API family
      implements, as numbers *)
  requests_ApiVersions : list Z;
  requests_Fetch : list Z;
  requests_JoinGroup : list Z;
  requests_ListOffsets : list Z;
  requests_SaslAuthenticate : list Z;
  (** [this.lock.acquire()] *)
  lock_acquire : Reaction unit;
  (** [this.connection.connect()], [.disconnect()], [.send(request)] *)
  connection_connect : Reaction unit;
  connection_disconnect : Reaction unit;
  connection_send : Request.t -> Reaction Response.t;
  (** [authenticator.authenticate()], yielding [authenticator.sessionLifetime] *)
  authenticate : Versions -> option bool -> Reaction Z;
  (** [shuffle] on the flattened topic-partitions *)
  shuffle : list (string * Fetch.Partition) -> list (string * Fetch.Partition)
}.

(** [async] code: a state transformer that returns or throws. *)
Definition M (A : Type) : Type := State -> Outcome A * State.

Definition ret {A} (a : A) : M A := fun s => (Return a, s).

Definition throw {A} (e : KafkaJSError.t) : M A := fun s => (Throw e, s).

Definition bind {A B} (m : M A) (k : A -> M B) : M B :=
  fun s =>
    match m s with
    | (Return a, s') => k a s'
    | (Throw e, s') => (Throw e, s')
    end.

(** [try { m } catch (e) { h e }] *)
Definition try_catch {A} (m : M A) (h : KafkaJSError.t -> M A) : M A :=
  fun s =>
    match m s with
    | (Return a, s') => (Return a, s')
    | (Throw e, s') => h e s'
    end.

(** [try { m } finally { f }]: [f] always runs; if it throws, its error
    replaces the outcome of [m]. *)
Definition try_finally {A} (m : M A) (f : M unit) : M A :=
  fun s =>
    let '(r, s') := m s in
    match f s' with
    | (Return _, s'') => (r, s'')
    | (Throw e, s'') => (Throw e, s'')
    end.

Declare Scope broker_scope.
Delimit Scope broker_scope with broker.
Notation "x <- m ;; k" := (bind m (fun x => k))
  (at level 100, m at next level, right associativity) : broker_scope.
Notation "m ;; k" := (bind m (fun _ => k))
  (at level 100, right associativity) : broker_scope.
Local Open Scope broker_scope.

Definition get : M State := fun s => (Return s, s).

Definition get_broker : M Broker := fun s => (Return (broker s), s).

Definition modify_broker (f : Broker -> Broker) : M unit :=
  fun s =>
    (Return tt,
     {| broker := f (broker s); connection := connection s;
        clock := clock s; calls := calls s |}).

Definition lift {A} (o : Outcome A) : M A := fun s => (o, s).

(** A call on a collaborator: it is logged, and the collaborator's reaction
    decides the outcome, the transport's state and the clock. The broker's
    own fields are out of its reach. *)
Definition external {A} (c : Call) (react : Reaction A) : M A :=
  fun s =>
    let '(r, up, clock') := react (calls s) (connection s) (clock s) in
    (r, {| broker := broker s; connection := set_connected up (connection s);
           clock := clock'; calls := calls s ++ [c] |}).

(** [this.lock.release()] resolves without error. *)
Definition lock_release : M unit :=
  fun s =>
    (Return tt,
     {| broker := broker s; connection := connection s;
        clock := clock s; calls := calls s ++ [CallLockRelease] |}).

(** ** Request lookup *)

(** The greatest element of a list of versions, if any. *)
Definition max_version (l : list Z) : option Z :=
  foldr (fun v acc => match acc with
                      | None => Some v
                      | Some w => Some (Z.max v w)
                      end) None l.

Definition UnsupportedVersionError : KafkaJSError.t :=
  {| KafkaJSError.name := "KafkaJSNonRetriableError";
     KafkaJSError.type := Some "UNSUPPORTED_VERSION";
     KafkaJSError.message := "The version of API is not supported";
     KafkaJSError.memberId := None |}.

(** Modelled from the spec: [lookup] of [protocol/requests] is missing.
    Given an API key and a family it "selects the
    highest version V such that family[V] exists AND
    versions[apiKey].minVersion <= V <= versions[apiKey].maxVersion"; if
    there is none the call "fails with UNSUPPORTED_VERSION". *)
Definition selectVersion (vs : Versions) (apiKey : Z) (family : list Z) : option Z :=
  match vs !! apiKey with
  | None => None
  | Some r =>
      max_version
        (filter (fun v => minVersion r <= v /\ v <= maxVersion r) family)
  end.

(** Calling [this.lookupRequest(apiKey, family)]: the sentinel throws
    [Error('Broker not connected')] whatever its arguments; a real lookup
    yields the version of the chosen factory. *)
Definition call_lookupRequest (l : Lookup) (apiKey : Z) (family : list Z) : Outcome Z :=
  match l with
  | notInitializedLookup => Throw (JsError "Broker not connected")
  | lookup vs =>
      match selectVersion vs apiKey family with
      | Some v => Return v
      | None => Throw UnsupportedVersionError
      end
  end.

(** ** [Array.prototype.sort] without a comparator *)

(** [String(n)] for an integer [n]: its decimal digits, with a sign when
    negative. *)
Definition Number_toString (n : Z) : string :=
  NilZero.string_of_int (Z.to_int n).

(** Insertion before the first element whose string is not smaller: the
    sort is stable. *)
Fixpoint sort_insert (x : Z) (l : list Z) : list Z :=
  match l with
  | [] => [x]
  | y :: l' =>
      if String.leb (Number_toString x) (Number_toString y)
      then x :: y :: l'
      else y :: sort_insert x l'
  end.

(** [array.sort()]: the default order compares the elements' string
    conversions, code unit by code unit. *)
Definition Array_sort (l : list Z) : list Z := foldr sort_insert [] l.

(** ** The broker's methods *)

Section Methods.

Context (env : Env).

(** [Broker.disconnect] *)
Definition disconnect : M unit :=
  modify_broker (set_authenticatedAt None) ;;
  external CallDisconnect (connection_disconnect env).

(** [Broker[PRIVATE.SEND_REQUEST]] *)
Definition sendRequest (protocolRequest : Request.t) : M Response.t :=
  try_catch
    (external (CallSend protocolRequest) (connection_send env protocolRequest))
    (fun e =>
       (if String.eqb (KafkaJSError.name e) "KafkaJSConnectionClosedError"
        then disconnect
        else ret tt) ;;
       throw e).

(** [requests.ApiVersions.versions.map(Number).sort().reverse()] *)
Definition availableVersions : list Z :=
  reverse (Array_sort (requests_ApiVersions env)).

(** The request of one probe: [apiVersions()] at the candidate version,
    with [requestTimeout] set to the connection's [connectionTimeout]. *)
Definition apiVersionsRequest (candidateVersion connectionTimeout : Z) : Request.t :=
  {| Request.apiKey := apiKeys_ApiVersions env;
     Request.apiVersion := candidateVersion;
     Request.payload := ApiVersionsPayload;
     Request.requestTimeout := Some connectionTimeout |}.

(** The [for] loop of [apiVersions]: [Some response] after a [break],
    [None] when the candidates run out with [response] still unset. *)
Fixpoint probeVersions (candidates : list Z) : M (option Response.t) :=
  match candidates with
  | [] => ret None
  | candidateVersion :: rest =>
      try_catch
        (s <- get ;;
         response <-
           sendRequest
             (apiVersionsRequest candidateVersion
                (connectionTimeout (connection s))) ;;
         ret (Some response))
        (fun e =>
           if bool_decide (KafkaJSError.type e = Some "UNSUPPORTED_VERSION")
           then probeVersions rest
           else throw e)
  end.

(** The final [reduce]: each entry is assigned into the object under its
    [apiKey], a later entry replacing an earlier one with the same key. *)
Definition reduceVersions (l : list ApiVersion.t) : Versions :=
  foldl (fun obj version =>
           <[ApiVersion.apiKey version :=
               {| minVersion := ApiVersion.minVersion version;
                  maxVersion := ApiVersion.maxVersion version |}]> obj)
        ∅ l.

(** [Broker.apiVersions] *)
Definition apiVersions : M Versions :=
  response <- probeVersions availableVersions ;;
  match response with
  | None => throw (KafkaJSNonRetriableError "API Versions not supported")
  | Some response => ret (reduceVersions (Response.apiVersions response))
  end.

(** [Broker.connect] *)
Definition connect : M unit :=
  try_finally
    (external CallLockAcquire (lock_acquire env) ;;
     s <- get ;;
     if isConnected (clock s) (connection s) (broker s) then ret tt
     else
       modify_broker (set_authenticatedAt None) ;;
       external CallConnect (connection_connect env) ;;
       b <- get_broker ;;
       vs <- match versions b with
             | Some vs => ret vs
             | None =>
                 vs <- apiVersions ;;
                 modify_broker (set_versions (Some vs)) ;;
                 ret vs
             end ;;
       modify_broker (set_lookupRequest (lookup vs)) ;;
       b <- get_broker ;;
       match supportAuthenticationProtocol b with
       | None =>
           match call_lookupRequest (lookupRequest b)
                   (apiKeys_SaslAuthenticate env)
                   (requests_SaslAuthenticate env) with
           | Return _ =>
               modify_broker (set_supportAuthenticationProtocol (Some true))
           | Throw _ =>
               modify_broker (set_supportAuthenticationProtocol (Some false))
           end
       | Some _ => ret tt
       end ;;
       s <- get ;;
       match authenticatedAt (broker s) with
       | None =>
           if sasl (connection s) then
             sessionLifetime <-
               external
                 (CallAuthenticate vs (supportAuthenticationProtocol (broker s)))
                 (authenticate env vs (supportAuthenticationProtocol (broker s))) ;;
             s' <- get ;;
             modify_broker (set_authenticatedAt (Some (clock s'))) ;;
             modify_broker (set_sessionLifetime (Long.fromValue sessionLifetime))
           else ret tt
       | Some _ => ret tt
       end)
    lock_release.

End Methods.

(** ** [joinGroup], [fetch] and [listOffsets] *)

(** The caller's argument objects, [None] for a property left out. *)
Record JoinGroupArgs := {
  arg_groupId : string;
  arg_sessionTimeout : Z;
  arg_rebalanceTimeout : Z;
  arg_memberId : option string;
  arg_protocolType : option string;
  arg_groupProtocols : list (string * string)
}.

Record FetchArgs := {
  arg_replicaId : option Z;
  arg_isolationLevel : option Z;
  arg_maxWaitTime : option Z;
  arg_minBytes : option Z;
  arg_maxBytes : option Z;
  arg_topics : list Fetch.Topic;
  arg_rackId : option string
}.

(** The first [reduce] of [fetch]: one [{ topic, partition }] pair per
    partition, pushed in order. *)
Definition flattenTopicPartitions (topics : list Fetch.Topic)
  : list (string * Fetch.Partition) :=
  foldl (fun topicPartitions t =>
           foldl (fun acc partition => acc ++ [(Fetch.topic t, partition)])
                 topicPartitions (Fetch.partitions t))
        [] topics.

(** One step of the second [reduce]: the pair joins the last entry when the
    topic is the same, and opens a new entry otherwise. *)
Definition consolidateStep (topicPartitions : list Fetch.Topic)
    (tp : string * Fetch.Partition) : list Fetch.Topic :=
  let '(topic, partition) := tp in
  match last topicPartitions with
  | Some last_ =>
      if String.eqb (Fetch.topic last_) topic then
        alter (fun t => {| Fetch.topic := Fetch.topic t;
                           Fetch.partitions := Fetch.partitions t ++ [partition] |})
              (pred (length topicPartitions)) topicPartitions
      else
        topicPartitions
          ++ [{| Fetch.topic := topic; Fetch.partitions := [partition] |}]
  | None =>
      topicPartitions
        ++ [{| Fetch.topic := topic; Fetch.partitions := [partition] |}]
  end.

Definition consolidateTopicPartitions (shuffled : list (string * Fetch.Partition))
  : list Fetch.Topic :=
  foldl consolidateStep [] shuffled.

(** [offsets ? { ...partitionData, offset: offsets.pop() } : partitionData]
    after the destructuring [{ offsets, ...partitionData }]. A truthy
    [offsets] that is no array has no [pop]. *)
Definition normalizePartition (p : PartitionData) : Outcome PartitionData :=
  let offsets := default VUndefined (p !! "offsets") in
  let partitionData := delete "offsets" p in
  if truthy offsets then
    match offsets with
    | VArray elements =>
        Return (<["offset" := default VUndefined (last elements)]> partitionData)
    | _ => Throw (JsTypeError "offsets.pop is not a function")
    end
  else Return partitionData.

(** [array.map(f)] for an [f] that may throw. *)
Fixpoint mapOutcome {A B} (f : A -> Outcome B) (l : list A) : Outcome (list B) :=
  match l with
  | [] => Return []
  | x :: l' =>
      match f x with
      | Throw e => Throw e
      | Return y =>
          match mapOutcome f l' with
          | Throw e => Throw e
          | Return ys => Return (y :: ys)
          end
      end
  end.

Definition normalizeTopicResponse (r : ListOffsets.TopicResponse)
  : Outcome ListOffsets.TopicResponse :=
  match mapOutcome normalizePartition (ListOffsets.partitions r) with
  | Throw e => Throw e
  | Return ps =>
      Return {| ListOffsets.topic := ListOffsets.topic r;
                ListOffsets.partitions := ps |}
  end.

Section Requests.

Context (env : Env).

Definition joinGroupRequest (version : Z) (a : JoinGroupArgs)
    (assignedMemberId : string) : Request.t :=
  {| Request.apiKey := apiKeys_JoinGroup env;
     Request.apiVersion := version;
     Request.payload :=
       JoinGroupPayload
         {| JoinGroup.groupId := arg_groupId a;
            JoinGroup.sessionTimeout := arg_sessionTimeout a;
            JoinGroup.rebalanceTimeout := arg_rebalanceTimeout a;
            JoinGroup.memberId := assignedMemberId;
            JoinGroup.protocolType := default "consumer" (arg_protocolType a);
            JoinGroup.groupProtocols := arg_groupProtocols a |};
     Request.requestTimeout := None |}.

(** [Broker.joinGroup]. [makeRequest] takes [None] for a missing or
    [undefined] argument, which its default replaces by [memberId]. *)
Definition joinGroup (a : JoinGroupArgs) : M Response.t :=
  b <- get_broker ;;
  version <- lift (call_lookupRequest (lookupRequest b)
                     (apiKeys_JoinGroup env) (requests_JoinGroup env)) ;;
  let memberId := default "" (arg_memberId a) in
  let makeRequest (assignedMemberId : option string) :=
    sendRequest env
      (joinGroupRequest version a (default memberId assignedMemberId)) in
  try_catch (makeRequest None)
    (fun error =>
       if String.eqb (KafkaJSError.name error) "KafkaJSMemberIdRequired"
       then makeRequest (KafkaJSError.memberId error)
       else throw error).

Definition fetchRequest (version : Z) (a : FetchArgs)
    (consolidated : list Fetch.Topic) : Request.t :=
  {| Request.apiKey := apiKeys_Fetch env;
     Request.apiVersion := version;
     Request.payload :=
       FetchPayload
         {| Fetch.replicaId := arg_replicaId a;
            Fetch.isolationLevel := arg_isolationLevel a;
            Fetch.maxWaitTime := default 5000 (arg_maxWaitTime a);
            Fetch.minBytes := default 1 (arg_minBytes a);
            Fetch.maxBytesTotal := default 10485760 (arg_maxBytes a);
            Fetch.topics := consolidated;
            Fetch.rackId := default "" (arg_rackId a) |};
     Request.requestTimeout := None |}.

(** The [topics] of the outgoing fetch request. *)
Definition fetchTopics (topics : list Fetch.Topic) : list Fetch.Topic :=
  consolidateTopicPartitions (shuffle env (flattenTopicPartitions topics)).

(** [Broker.fetch] *)
Definition fetch (a : FetchArgs) : M Response.t :=
  b <- get_broker ;;
  version <- lift (call_lookupRequest (lookupRequest b)
                     (apiKeys_Fetch env) (requests_Fetch env)) ;;
  sendRequest env (fetchRequest version a (fetchTopics (arg_topics a))).

Definition listOffsetsRequest (version : Z) (a : ListOffsets.Params) : Request.t :=
  {| Request.apiKey := apiKeys_ListOffsets env;
     Request.apiVersion := version;
     Request.payload := ListOffsetsPayload a;
     Request.requestTimeout := None |}.

(** [Broker.listOffsets] *)
Definition listOffsets (a : ListOffsets.Params) : M Response.t :=
  b <- get_broker ;;
  version <- lift (call_lookupRequest (lookupRequest b)
                     (apiKeys_ListOffsets env) (requests_ListOffsets env)) ;;
  result <- sendRequest env (listOffsetsRequest version a) ;;
  responses <- lift (mapOutcome normalizeTopicResponse (Response.responses result)) ;;
  ret (Response.with_responses responses result).

End Requests.

(** ** Scenarios *)

(** Collaborators used in the scenarios below: a call that leaves the
    transport as it was, one that brings it up, one that takes it down. *)
Definition keeps {A} (o : Outcome A) : Reaction A :=
  fun _ c now => (o, connected c, now).

Definition brings_up : Reaction unit :=
  fun _ _ now => (Return tt, true, now).

Definition takes_down (o : Outcome unit) : Reaction unit :=
  fun _ _ now => (o, false, now).

(** An environment with Kafka's API keys and small request families, a
    lock that is always free, a transport that connects and disconnects
    without error, and parameters for the ApiVersions table, the server's
    answers, the connection's [disconnect] and the shuffle. *)
Definition scenario_env (apiVersionsTable : list Z)
    (send : Request.t -> Reaction Response.t)
    (disconnect : Reaction unit)
    (shuffle : list (string * Fetch.Partition) -> list (string * Fetch.Partition))
  : Env :=
  {| apiKeys_ApiVersions := 18;
     apiKeys_Fetch := 1;
     apiKeys_JoinGroup := 11;
     apiKeys_ListOffsets := 2;
     apiKeys_SaslAuthenticate := 36;
     requests_ApiVersions := apiVersionsTable;
     requests_Fetch := [0; 1; 2; 3; 4];
     requests_JoinGroup := [0; 1; 2; 3; 4];
     requests_ListOffsets := [0; 1; 2];
     requests_SaslAuthenticate := [0; 1];
     lock_acquire := keeps (Return tt);
     connection_connect := brings_up;
     connection_disconnect := disconnect;
     connection_send := send;
     authenticate := fun _ _ => keeps (Return 60000);
     shuffle := shuffle |}.

Definition scenario_connection (up withSasl : bool) : Connection :=
  {| connected := up; sasl := withSasl; connectionTimeout := 1000;
     host := "localhost"; port := 9092 |}.

Definition no_options : BrokerOptions :=
  {| opt_nodeId := None; opt_versions := None;
     opt_authenticationTimeout := None;
     opt_reauthenticationThreshold := None;
     opt_allowAutoTopicCreation := None;
     opt_supportAuthenticationProtocol := None |}.

Definition epoch : HrTime := {| seconds := 0; nanos := 0 |}.

Definition after_seconds (n : Z) : HrTime := {| seconds := n; nanos := 0 |}.

(** A broker authenticated at [epoch] with a session of 60 seconds and the
    default threshold of 10 seconds. *)
Definition authenticated_broker : Broker :=
  set_sessionLifetime 60000
    (set_authenticatedAt (Some epoch) (new_Broker no_options)).

(** A freshly built broker on a connection that is [up] or not. *)
Definition fresh_state (up withSasl : bool) : State :=
  {| broker := new_Broker no_options;
     connection := scenario_connection up withSasl;
     clock := epoch;
     calls := [] |}.

Definition authenticated_state : State :=
  {| broker := authenticated_broker;
     connection := scenario_connection true true;
     clock := after_seconds 5;
     calls := [] |}.

Definition ConnectionClosedError : KafkaJSError.t :=
  {| KafkaJSError.name := "KafkaJSConnectionClosedError";
     KafkaJSError.type := None;
     KafkaJSError.message := "Closed connection";
     KafkaJSError.memberId := None |}.

Definition RequestTimeoutError : KafkaJSError.t :=
  {| KafkaJSError.name := "KafkaJSRequestTimeoutError";
     KafkaJSError.type := None;
     KafkaJSError.message := "Request timed out";
     KafkaJSError.memberId := None |}.

Definition SocketError : KafkaJSError.t :=
  JsError "write after end".

Definition empty_response : Response.t :=
  {| Response.throttleTime := 0; Response.apiVersions := [];
     Response.responses := [] |}.

Definition identity_shuffle (l : list (string * Fetch.Partition)) := l.

(** The transport drops every request with a connection-closed error, and
    its own [disconnect] then fails on the dead socket. *)
Definition env_closed_and_stuck : Env :=
  scenario_env [0; 1; 2]
    (fun _ => keeps (Throw ConnectionClosedError))
    (takes_down (Throw SocketError))
    identity_shuffle.

(** The transport drops every request with a connection-closed error and
    disconnects cleanly. *)
Definition env_closed : Env :=
  scenario_env [0; 1; 2]
    (fun _ => keeps (Throw ConnectionClosedError))
    (takes_down (Return tt))
    identity_shuffle.

(** Every request times out; the transport stays up. *)
Definition env_timeout : Env :=
  scenario_env [0; 1; 2]
    (fun _ => keeps (Throw RequestTimeoutError))
    (takes_down (Return tt))
    identity_shuffle.

(** Every request is answered with an empty response. *)
Definition env_quiet : Env :=
  scenario_env [0; 1; 2]
    (fun _ => keeps (Return empty_response))
    (takes_down (Return tt))
    identity_shuffle.

Definition metadata_like_request : Request.t :=
  {| Request.apiKey := 18; Request.apiVersion := 0;
     Request.payload := ApiVersionsPayload; Request.requestTimeout := None |}.

(** The state in which the connection's [disconnect] is entered. *)
Definition cleared (s : State) : State :=
  {| broker := set_authenticatedAt None (broker s);
     connection := connection s; clock := clock s; calls := calls s |}.

(** The requests handed to [connection.send], in order. *)
Definition sent (cs : list Call) : list Request.t :=
  omap (fun c => match c with CallSend r => Some r | _ => None end) cs.

(** The protocol error decoded from a response with the error code of
    [UNSUPPORTED_VERSION]. *)
Definition UnsupportedVersionProtocolError : KafkaJSError.t :=
  {| KafkaJSError.name := "KafkaJSProtocolError";
     KafkaJSError.type := Some "UNSUPPORTED_VERSION";
     KafkaJSError.message := "The version of API is not supported";
     KafkaJSError.memberId := None |}.

(** A server that answers the requests whose version it accepts and
    rejects the others with [UNSUPPORTED_VERSION]. *)
Definition accepting (ok : Z -> bool) (resp : Response.t)
  : Request.t -> Reaction Response.t :=
  fun r =>
    keeps (if ok (Request.apiVersion r) then Return resp
           else Throw UnsupportedVersionProtocolError).

Definition versions_response : Response.t :=
  {| Response.throttleTime := 0;
     Response.apiVersions :=
       [ {| ApiVersion.apiKey := 1; ApiVersion.minVersion := 0;
            ApiVersion.maxVersion := 11 |};
         {| ApiVersion.apiKey := 2; ApiVersion.minVersion := 0;
            ApiVersion.maxVersion := 5 |};
         {| ApiVersion.apiKey := 11; ApiVersion.minVersion := 0;
            ApiVersion.maxVersion := 5 |};
         {| ApiVersion.apiKey := 18; ApiVersion.minVersion := 0;
            ApiVersion.maxVersion := 10 |} ];
     Response.responses := [] |}.

(** The family of scenario S3, {3,2,1,0}, against a server that accepts
    versions 0 to 2. *)
Definition env_s3 : Env :=
  scenario_env [0; 1; 2; 3]
    (accepting (fun v => v <=? 2) versions_response)
    (takes_down (Return tt)) identity_shuffle.

(** A server that accepts no version at all. *)
Definition env_none : Env :=
  scenario_env [0; 1; 2]
    (accepting (fun _ => false) versions_response)
    (takes_down (Return tt)) identity_shuffle.

(** The range an entry of the response advertises. *)
Definition range_of (v : ApiVersion.t) : VersionRange :=
  {| minVersion := ApiVersion.minVersion v;
     maxVersion := ApiVersion.maxVersion v |}.

(** A broker that has negotiated [versions_response]. *)
Definition negotiated_versions : Versions :=
  reduceVersions (Response.apiVersions versions_response).

Definition connected_state : State :=
  {| broker :=
       set_lookupRequest (lookup negotiated_versions)
         (set_versions (Some negotiated_versions) (new_Broker no_options));
     connection := scenario_connection true false;
     clock := after_seconds 5;
     calls := [] |}.

Definition MemberIdRequired (m : string) : KafkaJSError.t :=
  {| KafkaJSError.name := "KafkaJSMemberIdRequired";
     KafkaJSError.type := Some "MEMBER_ID_REQUIRED";
     KafkaJSError.message :=
       "The group member needs to have a valid member id before actually entering a consumer group";
     KafkaJSError.memberId := Some m |}.

(** Scenario S4: the coordinator answers a join without member id with
    [MEMBER_ID_REQUIRED(memberId = m-7)] and accepts any other join. *)
Definition coordinator_s4 : Request.t -> Reaction Response.t :=
  fun r =>
    match Request.payload r with
    | JoinGroupPayload p =>
        if String.eqb (JoinGroup.memberId p) ""
        then keeps (Throw (MemberIdRequired "m-7"))
        else keeps (Return empty_response)
    | _ => keeps (Return empty_response)
    end.

Definition env_s4 : Env :=
  scenario_env [0; 1; 2] coordinator_s4 (takes_down (Return tt))
    identity_shuffle.

(** A coordinator that keeps asking for a member id. *)
Definition env_member_id_twice : Env :=
  scenario_env [0; 1; 2]
    (fun _ => keeps (Throw (MemberIdRequired "m-7")))
    (takes_down (Return tt)) identity_shuffle.

Definition join_g : JoinGroupArgs :=
  {| arg_groupId := "g"; arg_sessionTimeout := 30000;
     arg_rebalanceTimeout := 60000; arg_memberId := None;
     arg_protocolType := None;
     arg_groupProtocols := [("RoundRobinAssigner", "{}")] |}.

(** The (topic, partition) pairs a topic list stands for. *)
Definition topicPartitionPairs (topics : list Fetch.Topic)
  : list (string * Fetch.Partition) :=
  topics ≫= (fun t => map (pair (Fetch.topic t)) (Fetch.partitions t)).

(** No two neighbours of a topic list carry the same topic name. *)
Definition no_adjacent_same_topic (topics : list Fetch.Topic) : Prop :=
  forall (i : nat) (t1 t2 : Fetch.Topic),
    topics !! i = Some t1 -> topics !! (S i) = Some t2 ->
    Fetch.topic t1 <> Fetch.topic t2.

(** Scenario S2: one topic with partitions 0 and 1; and a second list with
    two topics, to be shuffled by reversal. *)
Definition fetch_partition (n : Z) : Fetch.Partition :=
  {| Fetch.partition := n; Fetch.fetchOffset := "0"; Fetch.maxBytes := 1024 |}.

Definition topics_s2 : list Fetch.Topic :=
  [ {| Fetch.topic := "t";
       Fetch.partitions := [fetch_partition 0; fetch_partition 1] |} ].

Definition topics_two : list Fetch.Topic :=
  [ {| Fetch.topic := "a";
       Fetch.partitions := [fetch_partition 0; fetch_partition 1] |};
    {| Fetch.topic := "b"; Fetch.partitions := [fetch_partition 0] |};
    {| Fetch.topic := "a"; Fetch.partitions := [fetch_partition 2] |} ].

Definition env_reversing : Env :=
  scenario_env [0; 1; 2]
    (fun _ => keeps (Return empty_response))
    (takes_down (Return tt)) reverse.

(** A ListOffsets v0 answer: one partition with [offsets: ['30','20','10']]
    and one that already has a scalar [offset]. *)
Definition partition_with_offsets : PartitionData :=
  {[ "partition" := VNumber 0; "errorCode" := VNumber 0;
     "offsets" := VArray [VString "30"; VString "20"; VString "10"] ]}.

Definition partition_with_offset : PartitionData :=
  {[ "partition" := VNumber 1; "errorCode" := VNumber 0;
     "offset" := VString "7" ]}.

Definition offsets_response : Response.t :=
  {| Response.throttleTime := 0; Response.apiVersions := [];
     Response.responses :=
       [ {| ListOffsets.topic := "t";
            ListOffsets.partitions :=
              [partition_with_offsets; partition_with_offset] |} ] |}.

Definition env_offsets : Env :=
  scenario_env [0; 1; 2]
    (fun _ => keeps (Return offsets_response))
    (takes_down (Return tt)) identity_shuffle.

Definition offsets_of_t : ListOffsets.Params :=
  {| ListOffsets.replicaId := None; ListOffsets.isolationLevel := None;
     ListOffsets.topics := [("t", [(0, -1); (1, -1)])] |}.

(** What [listOffsets] is to return for [offsets_response]. *)
Definition normalised_offsets_response : Response.t :=
  {| Response.throttleTime := 0; Response.apiVersions := [];
     Response.responses :=
       [ {| ListOffsets.topic := "t";
            ListOffsets.partitions :=
              [ <["offset" := VString "10"]>
                  (delete "offsets" partition_with_offsets);
                partition_with_offset ] |} ] |}.

Definition fetch_two : FetchArgs :=
  {| arg_replicaId := None; arg_isolationLevel := None;
     arg_maxWaitTime := None; arg_minBytes := None; arg_maxBytes := None;
     arg_topics := topics_two; arg_rackId := None |}.

(** A topic list with an entry that has no partitions. *)
Definition topics_with_empty : list Fetch.Topic :=
  [ {| Fetch.topic := "a"; Fetch.partitions := [fetch_partition 0] |};
    {| Fetch.topic := "b"; Fetch.partitions := [] |};
    {| Fetch.topic := "a"; Fetch.partitions := [fetch_partition 1] |} ].

Definition fetch_with_empty : FetchArgs :=
  {| arg_replicaId := None; arg_isolationLevel := None;
     arg_maxWaitTime := None; arg_minBytes := None; arg_maxBytes := None;
     arg_topics := topics_with_empty; arg_rackId := None |}.

(** ** Specifications of effectful code *)

(** [post m s Q]: running [m] from [s] ends, with a value or an error, in
    an outcome and a state that satisfy [Q]. *)
Definition post {A} (m : M A) (s : State) (Q : Outcome A -> State -> Prop) : Prop :=
  Q (m s).1 (m s).2.

(** A topic list without empty entries. *)
Definition no_empty_topic (topics : list Fetch.Topic) : Prop :=
  Forall (fun t => Fetch.partitions t <> []) topics.


(** A raw answer whose first partition carries a malformed [offsets]. *)
Definition partition_with_bad_offsets : PartitionData :=
  {[ "partition" := VNumber 0; "offsets" := VString "30" ]}.

Definition partition_with_null_offsets : PartitionData :=
  {[ "partition" := VNumber 0; "offsets" := VNull ]}.

(** The broker is as before, or as before with [authenticatedAt]
    cleared. *)
Definition at_most_unauthenticated (b b' : Broker) : Prop :=
  b' = b \/ b' = set_authenticatedAt None b.

(** A call on the transport: a send or a disconnect. *)
Definition transport_call (c : Call) : Prop :=
  c = CallDisconnect \/ exists r, c = CallSend r.

(** A call on the lock. *)
Definition lock_call (c : Call) : Prop :=
  c = CallLockAcquire \/ c = CallLockRelease.

(** What a request may do to the state: clear [authenticatedAt], and call
    the transport. *)
Definition rpc_frame (s s' : State) : Prop :=
  at_most_unauthenticated (broker s) (broker s')
  /\ sasl (connection s') = sasl (connection s)
  /\ connectionTimeout (connection s') = connectionTimeout (connection s)
  /\ exists l, calls s' = calls s ++ l /\ Forall transport_call l.

(** The invariant of the broker's fields: an authenticated broker has its
    versions and knows whether the server supports SaslAuthenticate. *)
Definition authenticated_implies_negotiated (b : Broker) : Prop :=
  authenticatedAt b <> None ->
  versions b <> None /\ supportAuthenticationProtocol b <> None.

(** A broker built with the versions of the cluster, on a transport that is
    down, without and with SASL. *)
Definition known_versions_state (withSasl : bool) : State :=
  {| broker :=
       new_Broker
         {| opt_nodeId := Some 1; opt_versions := Some negotiated_versions;
            opt_authenticationTimeout := None;
            opt_reauthenticationThreshold := None;
            opt_allowAutoTopicCreation := None;
            opt_supportAuthenticationProtocol := None |};
     connection := scenario_connection false withSasl;
     clock := after_seconds 5;
     calls := [] |}.

(** A coordinator whose [MEMBER_ID_REQUIRED] error carries no member id. *)
Definition MemberIdRequired_bare : KafkaJSError.t :=
  {| KafkaJSError.name := "KafkaJSMemberIdRequired";
     KafkaJSError.type := Some "MEMBER_ID_REQUIRED";
     KafkaJSError.message := "The group member needs to have a valid member id";
     KafkaJSError.memberId := None |}.

Definition env_member_id_missing : Env :=
  scenario_env [0; 1; 2]
    (fun _ => keeps (Throw MemberIdRequired_bare))
    (takes_down (Return tt)) identity_shuffle.

(** A broker authenticated at [epoch] whose session, 5 seconds, is shorter
    than the default threshold of 10 seconds. *)
Definition short_session_broker : Broker :=
  set_sessionLifetime 5000
    (set_authenticatedAt (Some epoch) (new_Broker no_options)).

(** ** The Fetch v9 request ([protocol/requests/fetch/v9/request]) *)

Module FetchV9.

(** Modelled from the spec: [protocol/isolationLevel] is missing; the
    glossary gives [READ_UNCOMMITTED=0], [READ_COMMITTED=1]. *)
Definition READ_COMMITTED : Z := 1.

(** What [writeInt64] is given: a number or a decimal string. *)
Inductive Int64Arg :=
| Int64Number (n : Z)
| Int64String (s : string).

(** Modelled from the spec: the [Encoder] class ([protocol/encoder]) is
    missing. An encoder is taken as the sequence of the writes made on it,
    each with its argument ([None] for [undefined]); an array is written
    from encoders or from plain numbers. The byte layout of each write is
    the encoder's own. *)
#[warnings="-register-all"]
Inductive Write :=
| writeInt8 (v : Z)
| writeInt32 (v : option Z)
| writeInt64 (v : option Int64Arg)
| writeString (s : string)
| writeArray (items : list (list Write + Z)).

Abbreviation Encoder := (list Write).

(** The objects the request is given. A numeric property is [None] when it
    is left out or [undefined]; topic names and the arrays ([topics],
    [partitions]) are present, as in every object [Broker.fetch] passes. *)
Module Partition.
Record t := {
  partition : option Z;
  currentLeaderEpoch : option Z;
  fetchOffset : option Int64Arg;
  logStartOffset : option Int64Arg;
  maxBytes : option Z
}.
(** The partition as [encodePartition] reads it, defaults filled in. *)
Definition resolve (p : t) : t :=
  {| partition := partition p;
     currentLeaderEpoch := Some (default (-1) (currentLeaderEpoch p));
     fetchOffset := fetchOffset p;
     logStartOffset := Some (default (Int64Number (-1)) (logStartOffset p));
     maxBytes := maxBytes p |}.
End Partition.

Module Topic.
Record t := { topic : string; partitions : list Partition.t }.
Definition resolve (x : t) : t :=
  {| topic := topic x; partitions := map Partition.resolve (partitions x) |}.
End Topic.

Module ForgottenTopic.
Record t := { topic : string; partitions : list Z }.
End ForgottenTopic.

(** The parameter object: the nine properties the request destructures,
    and [rackId], which [Broker.fetch] passes with every request and which
    the pattern of this version does not name. *)
Record Args := {
  replicaId : option Z;
  maxWaitTime : option Z;
  minBytes : option Z;
  maxBytes : option Z;
  topics : list Topic.t;
  isolationLevel : option Z;
  sessionId : option Z;
  sessionEpoch : option Z;
  forgottenTopics : option (list ForgottenTopic.t);
  rackId : option string
}.

(** The parameter object as the request reads it: the defaults filled in,
    and [rackId] gone. *)
Definition resolve (a : Args) : Args :=
  {| replicaId := replicaId a;
     maxWaitTime := maxWaitTime a;
     minBytes := minBytes a;
     maxBytes := maxBytes a;
     topics := map Topic.resolve (topics a);
     isolationLevel := Some (default READ_COMMITTED (isolationLevel a));
     sessionId := Some (default 0 (sessionId a));
     sessionEpoch := Some (default (-1) (sessionEpoch a));
     forgottenTopics := Some (default [] (forgottenTopics a));
     rackId := None |}.

Definition encodePartition (p : Partition.t) : Encoder :=
  [ writeInt32 (Partition.partition p);
    writeInt32 (Some (default (-1) (Partition.currentLeaderEpoch p)));
    writeInt64 (Partition.fetchOffset p);
    writeInt64 (Some (default (Int64Number (-1)) (Partition.logStartOffset p)));
    writeInt32 (Partition.maxBytes p) ].

Definition encodeTopic (x : Topic.t) : Encoder :=
  [ writeString (Topic.topic x);
    writeArray (map (fun p => inl (encodePartition p)) (Topic.partitions x)) ].

Definition encodeForgottenTopics (x : ForgottenTopic.t) : Encoder :=
  [ writeString (ForgottenTopic.topic x);
    writeArray (map inr (ForgottenTopic.partitions x)) ].

(** The record the request function returns; [encode] is what its
    [encode()] builds. *)
Record Request := {
  apiKey : Z;
  apiVersion : Z;
  apiName : string;
  encode : Encoder
}.

Definition request (env : Env) (a : Args) : Request :=
  {| apiKey := apiKeys_Fetch env;
     apiVersion := 9;
     apiName := "Fetch";
     encode :=
       [ writeInt32 (replicaId a);
         writeInt32 (maxWaitTime a);
         writeInt32 (minBytes a);
         writeInt32 (maxBytes a);
         writeInt8 (default READ_COMMITTED (isolationLevel a));
         writeInt32 (Some (default 0 (sessionId a)));
         writeInt32 (Some (default (-1) (sessionEpoch a)));
         writeArray (map (fun x => inl (encodeTopic x)) (topics a));
         writeArray (map (fun x => inl (encodeForgottenTopics x))
                       (default [] (forgottenTopics a))) ] |}.

End FetchV9.

(** A fetch of two partitions of one topic as [Broker.fetch] passes it,
    with a [rackId] and everything optional left out, and the same without
    [rackId] and with the defaults written out. *)
Definition v9_partition (n : Z) (explicit : bool) : FetchV9.Partition.t :=
  {| FetchV9.Partition.partition := Some n;
     FetchV9.Partition.currentLeaderEpoch := if explicit then Some (-1) else None;
     FetchV9.Partition.fetchOffset := Some (FetchV9.Int64String "0");
     FetchV9.Partition.logStartOffset :=
       if explicit then Some (FetchV9.Int64Number (-1)) else None;
     FetchV9.Partition.maxBytes := Some 1024 |}.

Definition v9_args (explicit : bool) : FetchV9.Args :=
  {| FetchV9.replicaId := Some (-1);
     FetchV9.maxWaitTime := Some 5000;
     FetchV9.minBytes := Some 1;
     FetchV9.maxBytes := Some 10485760;
     FetchV9.topics :=
       [ {| FetchV9.Topic.topic := "t";
            FetchV9.Topic.partitions :=
              [v9_partition 0 explicit; v9_partition 1 explicit] |} ];
     FetchV9.isolationLevel := if explicit then Some 1 else None;
     FetchV9.sessionId := if explicit then Some 0 else None;
     FetchV9.sessionEpoch := if explicit then Some (-1) else None;
     FetchV9.forgottenTopics := if explicit then Some [] else None;
     FetchV9.rackId := if explicit then None else Some "rack-a" |}.

(** * Verified properties *)

(** ** 64-bit arithmetic *)

Lemma wrap_inRange (z : Z) : Long.inRange z -> Long.wrap z = z.
Proof.
  unfold Long.inRange, Long.wrap. intros Hz.
  rewrite Z.mod_small by lia. lia.
Qed.

Lemma wrap_range (z : Z) : Long.inRange (Long.wrap z).
Proof.
  unfold Long.inRange, Long.wrap.
  pose proof (Z.mod_pos_bound (z + 2 ^ 63) (2 ^ 64)). lia.
Qed.

(** Two integers that agree modulo 2^64 wrap to the same [Long]. *)
Lemma wrap_congr (x y : Z) :
  x mod 2 ^ 64 = y mod 2 ^ 64 -> Long.wrap x = Long.wrap y.
Proof.
  intros H. unfold Long.wrap. f_equal.
  rewrite (Z.add_mod x), (Z.add_mod y) by lia. now rewrite H.
Qed.

Lemma wrap_mod (z : Z) : Long.wrap z mod 2 ^ 64 = z mod 2 ^ 64.
Proof.
  unfold Long.wrap.
  rewrite Zminus_mod_idemp_l.
  replace (z + 2 ^ 63 - 2 ^ 63) with z by lia. reflexivity.
Qed.

Lemma wrap_add_l (a b : Z) : Long.wrap (Long.wrap a + b) = Long.wrap (a + b).
Proof.
  apply wrap_congr.
  rewrite Z.add_mod, wrap_mod, <- Z.add_mod by lia. reflexivity.
Qed.

Lemma wrap_add_r (a b : Z) : Long.wrap (a + Long.wrap b) = Long.wrap (a + b).
Proof. rewrite (Z.add_comm a), wrap_add_l. f_equal. lia. Qed.

Lemma wrap_mul_l (a b : Z) : Long.wrap (Long.wrap a * b) = Long.wrap (a * b).
Proof.
  apply wrap_congr.
  rewrite Z.mul_mod, wrap_mod, <- Z.mul_mod by lia. reflexivity.
Qed.

(** ** The clock *)

(** [process.hrtime(prev)] splits the elapsed nanoseconds into seconds and
    a remainder below one second. *)
Lemma hrtime_since_spec (now prev : HrTime) :
  wf_hrtime now -> wf_hrtime prev ->
  let '(sec, nsec) := hrtime_since now prev in
  sec * 1000000000 + nsec = total_nanos now - total_nanos prev
  /\ 0 <= nsec < 1000000000.
Proof.
  unfold wf_hrtime, hrtime_since, total_nanos. intros Hn Hp.
  destruct (Z.ltb_spec (nanos now - nanos prev) 0); lia.
Qed.

(** The [Long] computation of the source yields the elapsed whole
    milliseconds, reduced to 64 bits. *)
Lemma millisSince_elapsed (now prev : HrTime) :
  wf_hrtime now -> wf_hrtime prev ->
  millisSince now prev = Long.wrap (elapsedMillis now prev).
Proof.
  intros Hn Hp. pose proof (hrtime_since_spec now prev Hn Hp) as H.
  unfold millisSince, elapsedMillis.
  destruct (hrtime_since now prev) as [sec nsec]. destruct H as [Heq Hns].
  rewrite <- Heq.
  replace (sec * 1000000000 + nsec) with (nsec + (sec * 1000) * 1000000) by lia.
  rewrite Z.div_add by lia.
  assert (Hq : 0 <= nsec / 1000000 < 1000).
  { split; [apply Z.div_pos; lia | apply Z.div_lt_upper_bound; lia]. }
  unfold Long.add, Long.multiply, Long.divide, Long.fromValue.
  rewrite (wrap_inRange nsec) by (unfold Long.inRange; lia).
  rewrite (wrap_inRange 1000000) by (unfold Long.inRange; lia).
  rewrite (wrap_inRange 1000) by (unfold Long.inRange; lia).
  rewrite Z.quot_div_nonneg by lia.
  rewrite !(wrap_inRange (nsec / 1000000)) by (unfold Long.inRange; lia).
  rewrite wrap_mul_l, wrap_add_l. f_equal. lia.
Qed.

(** ** [isConnected] and the re-authentication policy *)

(** C1. With [sasl] configured, [isConnected()] is true exactly when the
    connection reports connected, [authenticatedAt] is set and the
    re-authentication predicate is false; without [sasl] it is the
    connection's [connected] flag. *)
Theorem isConnected_spec (now : HrTime) (c : Connection) (b : Broker) :
  (sasl c = true ->
   (isConnected now c b = true <->
    connected c = true /\ authenticatedAt b <> None
    /\ shouldReauthenticate now b = false))
  /\ (sasl c = false -> isConnected now c b = connected c).
Proof.
  unfold isConnected. split; intros Hs; rewrite Hs; [|reflexivity].
  destruct (connected c), (authenticatedAt b) as [t|] eqn:Hat; simpl;
    destruct (shouldReauthenticate now b); simpl;
    split; try (intros (? & ? & ?)); try intros ?;
    try done; repeat split; congruence.
Qed.

(** C2. [shouldReauthenticate] is false when [sessionLifetime] is zero;
    otherwise true when [authenticatedAt] is unset; otherwise, with
    [elapsed] the whole milliseconds since [authenticatedAt], it is true
    exactly when [elapsed + reauthenticationThreshold], as a 64-bit
    integer, is at least [sessionLifetime] -- which is the plain sum
    whenever that fits 64 bits. *)
Theorem shouldReauthenticate_spec (now : HrTime) (b : Broker) :
  (sessionLifetime b = 0 -> shouldReauthenticate now b = false)
  /\ (sessionLifetime b <> 0 -> authenticatedAt b = None ->
      shouldReauthenticate now b = true)
  /\ (forall at_ : HrTime,
        sessionLifetime b <> 0 -> authenticatedAt b = Some at_ ->
        wf_hrtime now -> wf_hrtime at_ ->
        let elapsed := elapsedMillis now at_ in
        (shouldReauthenticate now b = true <->
         Long.wrap (elapsed + reauthenticationThreshold b) >= sessionLifetime b)
        /\ (Long.inRange (elapsed + reauthenticationThreshold b) ->
            (shouldReauthenticate now b = true <->
             elapsed + reauthenticationThreshold b >= sessionLifetime b))).
Proof.
  unfold shouldReauthenticate, Long.equals, Long.ZERO.
  split; [|split].
  - intros ->. reflexivity.
  - intros Hl ->. destruct (Z.eqb_spec (sessionLifetime b) 0); [lia|done].
  - intros at_ Hl Hat Hn Ha. rewrite Hat. cbv zeta.
    set (elapsed := elapsedMillis now at_).
    destruct (Z.eqb_spec (sessionLifetime b) 0) as [|_]; [lia|].
    rewrite millisSince_elapsed by assumption. fold elapsed.
    unfold Long.add, Long.fromValue, Long.greaterThanOrEqual.
    rewrite wrap_add_r, wrap_add_l.
    assert (Hw : (sessionLifetime b <=?
                    Long.wrap (elapsed + reauthenticationThreshold b)) = true
                 <-> Long.wrap (elapsed + reauthenticationThreshold b)
                     >= sessionLifetime b).
    { rewrite Z.leb_le. lia. }
    split; [exact Hw|].
    intros Hr. rewrite (wrap_inRange _ Hr) in Hw |- *. exact Hw.
Qed.

(** The authenticated broker of the scenarios, 40 and 55 seconds into a
    60-second session, and a broker that never authenticated. *)
Lemma isConnected_spec_witness :
  isConnected (after_seconds 40) (scenario_connection true true)
    authenticated_broker = true
  /\ (isConnected (after_seconds 55) (scenario_connection true true)
        authenticated_broker = true -> False)
  /\ isConnected epoch (scenario_connection true false)
       (new_Broker no_options) = true.
Proof.
  split; [|split].
  - apply (proj1 (isConnected_spec (after_seconds 40)
                    (scenario_connection true true) authenticated_broker)).
    + reflexivity.
    + split; [reflexivity | split; [discriminate | vm_compute; reflexivity]].
  - intros H.
    apply (proj1 (isConnected_spec (after_seconds 55)
                    (scenario_connection true true) authenticated_broker)) in H.
    + destruct H as (_ & _ & H). vm_compute in H. discriminate.
    + reflexivity.
  - apply (proj2 (isConnected_spec epoch (scenario_connection true false)
                    (new_Broker no_options))).
    reflexivity.
Defined.

Lemma shouldReauthenticate_spec_witness :
  shouldReauthenticate epoch (new_Broker no_options) = false
  /\ shouldReauthenticate epoch
       (set_sessionLifetime 60000 (new_Broker no_options)) = true
  /\ shouldReauthenticate (after_seconds 55) authenticated_broker = true.
Proof.
  split; [|split].
  - apply (proj1 (shouldReauthenticate_spec epoch (new_Broker no_options))).
    reflexivity.
  - apply (proj1 (proj2 (shouldReauthenticate_spec epoch
                           (set_sessionLifetime 60000 (new_Broker no_options)))));
      [discriminate | reflexivity].
  - apply (proj2 (proj2 (shouldReauthenticate_spec (after_seconds 55)
                           authenticated_broker)) epoch);
      [discriminate | reflexivity | vm_compute; intuition discriminate
      | vm_compute; intuition discriminate
      | vm_compute; intuition discriminate
      | vm_compute; discriminate].
Defined.

(** ** The monad's plumbing *)

Lemma external_broker {A} (c : Call) (react : Reaction A) (s : State) :
  broker (external c react s).2 = broker s.
Proof.
  unfold external.
  destruct (react (calls s) (connection s) (clock s)) as [[r up] t].
  reflexivity.
Qed.

Lemma external_calls {A} (c : Call) (react : Reaction A) (s : State) :
  calls (external c react s).2 = calls s ++ [c].
Proof.
  unfold external.
  destruct (react (calls s) (connection s) (clock s)) as [[r up] t].
  reflexivity.
Qed.

Lemma external_outcome {A} (c : Call) (react : Reaction A) (s : State) :
  (external c react s).1 = (react (calls s) (connection s) (clock s)).1.1.
Proof.
  unfold external.
  destruct (react (calls s) (connection s) (clock s)) as [[r up] t].
  reflexivity.
Qed.

(** The configuration of the connection never changes. *)
Lemma external_connectionTimeout {A} (c : Call) (react : Reaction A) (s : State) :
  connectionTimeout (connection (external c react s).2)
  = connectionTimeout (connection s).
Proof.
  unfold external.
  destruct (react (calls s) (connection s) (clock s)) as [[r up] t].
  reflexivity.
Qed.

(** ** [disconnect] *)

(** [disconnect] is the connection's [disconnect], entered with
    [authenticatedAt] already cleared. *)
Lemma disconnect_run (env : Env) (s : State) :
  disconnect env s
  = external CallDisconnect (connection_disconnect env) (cleared s).
Proof. reflexivity. Qed.

Lemma disconnect_authenticatedAt (env : Env) (s : State) :
  authenticatedAt (broker (disconnect env s).2) = None.
Proof. rewrite disconnect_run, external_broker. reflexivity. Qed.

Lemma disconnect_calls (env : Env) (s : State) :
  calls (disconnect env s).2 = calls s ++ [CallDisconnect].
Proof. rewrite disconnect_run, external_calls. reflexivity. Qed.

(** C10. [disconnect()] clears [authenticatedAt] first and delegates to the
    connection in that state; whether the connection's [disconnect] then
    returns or throws, [authenticatedAt] is NIL afterwards and every other
    field of the broker is as before. *)
Theorem disconnect_spec (env : Env) (s : State) :
  disconnect env s
  = external CallDisconnect (connection_disconnect env) (cleared s)
  /\ (disconnect env s).1
     = (connection_disconnect env (calls s) (connection s) (clock s)).1.1
  /\ authenticatedAt (broker (disconnect env s).2) = None
  /\ versions (broker (disconnect env s).2) = versions (broker s)
  /\ sessionLifetime (broker (disconnect env s).2) = sessionLifetime (broker s)
  /\ supportAuthenticationProtocol (broker (disconnect env s).2)
     = supportAuthenticationProtocol (broker s)
  /\ lookupRequest (broker (disconnect env s).2) = lookupRequest (broker s)
  /\ nodeId (broker (disconnect env s).2) = nodeId (broker s)
  /\ authenticationTimeout (broker (disconnect env s).2)
     = authenticationTimeout (broker s)
  /\ reauthenticationThreshold (broker (disconnect env s).2)
     = reauthenticationThreshold (broker s)
  /\ allowAutoTopicCreation (broker (disconnect env s).2)
     = allowAutoTopicCreation (broker s)
  /\ calls (disconnect env s).2 = calls s ++ [CallDisconnect].
Proof.
  split; [apply disconnect_run|]. rewrite disconnect_run.
  rewrite external_outcome, external_broker, external_calls.
  repeat split; reflexivity.
Qed.

(** A connection whose [disconnect] throws still leaves the broker
    unauthenticated. *)
Example disconnect_failing :
  (disconnect env_closed_and_stuck authenticated_state).1 = Throw SocketError
  /\ authenticatedAt (broker (disconnect env_closed_and_stuck authenticated_state).2)
     = None.
Proof. split; reflexivity. Qed.

(** ** The internal send path *)

Lemma bind_run {A B} (m : M A) (k : A -> M B) (s : State) :
  bind m k s = match m s with
               | (Return a, s') => k a s'
               | (Throw e, s') => (Throw e, s')
               end.
Proof. reflexivity. Qed.

(** [sendRequest] unfolded on the outcome of the connection's [send]. *)
Lemma sendRequest_run (env : Env) (req : Request.t) (s : State) :
  sendRequest env req s
  = match external (CallSend req) (connection_send env req) s with
    | (Return resp, s1) => (Return resp, s1)
    | (Throw e, s1) =>
        if String.eqb (KafkaJSError.name e) "KafkaJSConnectionClosedError"
        then match disconnect env s1 with
             | (Return _, s2) => (Throw e, s2)
             | (Throw e', s2) => (Throw e', s2)
             end
        else (Throw e, s1)
    end.
Proof.
  unfold sendRequest, try_catch.
  destruct (external (CallSend req) (connection_send env req) s) as [[resp|e] s1];
    [reflexivity|].
  rewrite bind_run.
  destruct (String.eqb (KafkaJSError.name e) "KafkaJSConnectionClosedError").
  - destruct (disconnect env s1) as [[[]|e'] s2]; reflexivity.
  - reflexivity.
Qed.

(** C3, as the code has it. A response is passed on. A failure of any kind
    other than connection-closed propagates unchanged, with the broker's
    fields untouched and no [disconnect]. On a connection-closed failure
    the broker calls [disconnect()]: [authenticatedAt] is NIL afterwards and
    the connection's [disconnect] has been invoked once; the same error is
    then re-raised if that [disconnect] completed, and the error of the
    [disconnect] is raised in its place if it failed. *)
Theorem sendRequest_spec (env : Env) (req : Request.t) (s : State) :
  (forall resp,
     (external (CallSend req) (connection_send env req) s).1 = Return resp ->
     sendRequest env req s
     = external (CallSend req) (connection_send env req) s)
  /\ (forall e,
        (external (CallSend req) (connection_send env req) s).1 = Throw e ->
        KafkaJSError.name e <> "KafkaJSConnectionClosedError" ->
        (sendRequest env req s).1 = Throw e
        /\ broker (sendRequest env req s).2 = broker s
        /\ calls (sendRequest env req s).2 = calls s ++ [CallSend req])
  /\ (forall e,
        (external (CallSend req) (connection_send env req) s).1 = Throw e ->
        KafkaJSError.name e = "KafkaJSConnectionClosedError" ->
        authenticatedAt (broker (sendRequest env req s).2) = None
        /\ calls (sendRequest env req s).2
           = calls s ++ [CallSend req; CallDisconnect]
        /\ ((disconnect env
               (external (CallSend req) (connection_send env req) s).2).1
            = Return tt ->
            (sendRequest env req s).1 = Throw e)
        /\ (forall e',
              (disconnect env
                 (external (CallSend req) (connection_send env req) s).2).1
              = Throw e' ->
              (sendRequest env req s).1 = Throw e')).
Proof.
  rewrite sendRequest_run.
  pose proof (external_broker (CallSend req) (connection_send env req) s) as Hb.
  pose proof (external_calls (CallSend req) (connection_send env req) s) as Hc.
  destruct (external (CallSend req) (connection_send env req) s)
    as [[resp|e] s1]; simpl in *.
  - split; [reflexivity|]. split; intros e He; discriminate.
  - split; [intros resp Hr; discriminate|].
    split; intros e0 He Hn; injection He as <-.
    + apply String.eqb_neq in Hn. rewrite Hn. simpl. auto.
    + apply String.eqb_eq in Hn. rewrite Hn.
      pose proof (disconnect_authenticatedAt env s1) as Hat.
      pose proof (disconnect_calls env s1) as Hcs.
      destruct (disconnect env s1) as [[[]|e'] s2]; simpl in *;
        rewrite Hcs, Hc, <- app_assoc; repeat split;
        try assumption; try congruence; try discriminate.
Qed.

Lemma sendRequest_spec_witness :
  (sendRequest env_quiet metadata_like_request authenticated_state).1
  = Return empty_response
  /\ ((sendRequest env_timeout metadata_like_request authenticated_state).1
      = Throw RequestTimeoutError
      /\ broker (sendRequest env_timeout metadata_like_request
                   authenticated_state).2
         = authenticated_broker)
  /\ ((sendRequest env_closed metadata_like_request authenticated_state).1
      = Throw ConnectionClosedError
      /\ authenticatedAt
           (broker (sendRequest env_closed metadata_like_request
                      authenticated_state).2)
         = None).
Proof.
  split; [|split].
  - rewrite (proj1 (sendRequest_spec env_quiet metadata_like_request
                      authenticated_state) empty_response);
      reflexivity.
  - destruct (proj1 (proj2 (sendRequest_spec env_timeout metadata_like_request
                              authenticated_state)) RequestTimeoutError)
      as (H1 & H2 & _); [reflexivity | discriminate |].
    split; [exact H1 | exact H2].
  - destruct (proj2 (proj2 (sendRequest_spec env_closed metadata_like_request
                              authenticated_state)) ConnectionClosedError)
      as (H1 & _ & H2 & _); [reflexivity | reflexivity |].
    split; [apply H2; reflexivity | exact H1].
Defined.

(** C3 as stated fails when the connection's own [disconnect] throws: the
    send failed with the connection-closed error, and what [sendRequest]
    raises is the error of the [disconnect], not that error. *)
Lemma sendRequest_disconnect_error_replaces_closed_error :
  (external (CallSend metadata_like_request)
     (connection_send env_closed_and_stuck metadata_like_request)
     authenticated_state).1
  = Throw ConnectionClosedError
  /\ KafkaJSError.name ConnectionClosedError = "KafkaJSConnectionClosedError"
  /\ (sendRequest env_closed_and_stuck metadata_like_request
        authenticated_state).1
     = Throw SocketError
  /\ (sendRequest env_closed_and_stuck metadata_like_request
        authenticated_state).1
     <> Throw ConnectionClosedError.
Proof. repeat split; [reflexivity .. | discriminate]. Qed.

(** ** The order of the candidate versions *)

(** On one-digit versions the string order is the numeric order. *)
Lemma digit_cases (a : Z) :
  0 <= a < 10 ->
  a = 0 \/ a = 1 \/ a = 2 \/ a = 3 \/ a = 4 \/ a = 5 \/ a = 6 \/ a = 7
  \/ a = 8 \/ a = 9.
Proof. lia. Qed.

Lemma toString_leb_digit (a b : Z) :
  0 <= a < 10 -> 0 <= b < 10 ->
  String.leb (Number_toString a) (Number_toString b) = (a <=? b).
Proof.
  intros Ha Hb.
  destruct (digit_cases a Ha) as [->|[->|[->|[->|[->|[->|[->|[->|[->| ->]]]]]]]]];
    destruct (digit_cases b Hb) as [->|[->|[->|[->|[->|[->|[->|[->|[->| ->]]]]]]]]];
    reflexivity.
Qed.

Lemma sort_insert_perm (x : Z) (l : list Z) : sort_insert x l ≡ₚ x :: l.
Proof.
  induction l as [|y l IH]; simpl; [reflexivity|].
  destruct (String.leb _ _); [reflexivity|].
  rewrite IH. apply Permutation_swap.
Qed.

Lemma Array_sort_perm (l : list Z) : Array_sort l ≡ₚ l.
Proof.
  induction l as [|x l IH]; simpl; [reflexivity|].
  rewrite sort_insert_perm. now rewrite IH.
Qed.

Lemma sort_insert_sorted (x : Z) (l : list Z) :
  0 <= x < 10 -> Forall (fun v => 0 <= v < 10) l ->
  StronglySorted Z.le l -> StronglySorted Z.le (sort_insert x l).
Proof.
  intros Hx Hl Hs. induction Hs as [|y l Hs IH Hy]; simpl.
  - repeat constructor.
  - apply Forall_cons in Hl as [Hdy Hl].
    rewrite toString_leb_digit by assumption.
    destruct (Z.leb_spec x y) as [Hxy|Hxy].
    + constructor; [constructor; assumption|].
      constructor; [assumption|].
      eapply Forall_impl; [exact Hy|]. simpl. intros z Hz. lia.
    + constructor; [apply IH; assumption|].
      rewrite sort_insert_perm. constructor; [lia | assumption].
Qed.

Lemma Array_sort_sorted (l : list Z) :
  Forall (fun v => 0 <= v < 10) l -> StronglySorted Z.le (Array_sort l).
Proof.
  induction l as [|x l IH]; intros Hl; simpl; [constructor|].
  apply Forall_cons in Hl as [Hx Hl].
  apply sort_insert_sorted; [assumption| |apply IH; assumption].
  rewrite Array_sort_perm. assumption.
Qed.

Lemma StronglySorted_reverse {A} (R : relation A) (l : list A) :
  StronglySorted R l -> StronglySorted (flip R) (reverse l).
Proof.
  induction 1 as [|x l Hs IH Hx]; [constructor|].
  rewrite reverse_cons. apply StronglySorted_app_2.
  - intros x1 x2 H1 H2. apply list_elem_of_singleton in H2 as ->.
    rewrite elem_of_reverse in H1. rewrite Forall_forall in Hx.
    apply Hx. assumption.
  - assumption.
  - repeat constructor.
Qed.

Lemma StronglySorted_strict (l : list Z) :
  NoDup l -> StronglySorted (flip Z.le) l -> StronglySorted Z.gt l.
Proof.
  intros Hnd Hs. induction Hs as [|x l Hs IH Hx]; [constructor|].
  apply NoDup_cons in Hnd as [Hnx Hnd].
  constructor; [apply IH; assumption|].
  rewrite Forall_forall in Hx |- *. intros y Hy.
  specialize (Hx y Hy). unfold flip in Hx.
  assert (y <> x) by (intros ->; contradiction). lia.
Qed.

(** X11. While every version of the ApiVersions family has one digit, the
    candidates are in strictly descending numeric order. *)
Lemma availableVersions_descending_below_10 (env : Env) :
  NoDup (requests_ApiVersions env) ->
  Forall (fun v => 0 <= v < 10) (requests_ApiVersions env) ->
  StronglySorted Z.gt (availableVersions env)
  /\ availableVersions env ≡ₚ requests_ApiVersions env.
Proof.
  intros Hnd Hd. unfold availableVersions.
  assert (Hp : reverse (Array_sort (requests_ApiVersions env))
               ≡ₚ requests_ApiVersions env)
    by (rewrite reverse_Permutation; apply Array_sort_perm).
  split; [|exact Hp].
  apply StronglySorted_strict; [rewrite Hp; assumption|].
  apply StronglySorted_reverse, Array_sort_sorted. assumption.
Qed.

(** ** Version negotiation *)

Lemma sendRequest_calls (env : Env) (req : Request.t) (s : State) :
  calls (sendRequest env req s).2 = calls s ++ [CallSend req]
  \/ calls (sendRequest env req s).2 = calls s ++ [CallSend req; CallDisconnect].
Proof.
  rewrite sendRequest_run.
  pose proof (external_calls (CallSend req) (connection_send env req) s) as Hc.
  destruct (external (CallSend req) (connection_send env req) s)
    as [[resp|e] s1]; simpl in *; [left; assumption|].
  destruct (String.eqb _ _); [|left; assumption].
  pose proof (disconnect_calls env s1) as Hcs.
  right.
  destruct (disconnect env s1) as [[[]|e'] s2]; simpl in *;
    rewrite Hcs, Hc, <- app_assoc; reflexivity.
Qed.

(** Every [sendRequest] hands exactly one request to the connection. *)
Lemma sendRequest_sent (env : Env) (req : Request.t) (s : State) :
  sent (calls (sendRequest env req s).2) = sent (calls s) ++ [req].
Proof.
  unfold sent.
  destruct (sendRequest_calls env req s) as [-> | ->];
    rewrite omap_app; reflexivity.
Qed.

Lemma disconnect_connectionTimeout (env : Env) (s : State) :
  connectionTimeout (connection (disconnect env s).2)
  = connectionTimeout (connection s).
Proof.
  rewrite disconnect_run.
  apply (external_connectionTimeout CallDisconnect _ (cleared s)).
Qed.

Lemma sendRequest_connectionTimeout (env : Env) (req : Request.t) (s : State) :
  connectionTimeout (connection (sendRequest env req s).2)
  = connectionTimeout (connection s).
Proof.
  rewrite sendRequest_run.
  pose proof (external_connectionTimeout (CallSend req)
                (connection_send env req) s) as Hc.
  destruct (external (CallSend req) (connection_send env req) s)
    as [[resp|e] s1]; simpl in *; [assumption|].
  destruct (String.eqb _ _); [|assumption].
  pose proof (disconnect_connectionTimeout env s1) as Hd.
  destruct (disconnect env s1) as [[[]|e'] s2]; simpl in *; congruence.
Qed.

(** One turn of the loop, on the outcome of the probe. *)
Lemma probeVersions_run (env : Env) (c : Z) (rest : list Z) (s : State) :
  probeVersions env (c :: rest) s
  = match sendRequest env
            (apiVersionsRequest env c (connectionTimeout (connection s))) s with
    | (Return response, s1) => (Return (Some response), s1)
    | (Throw e, s1) =>
        if bool_decide (KafkaJSError.type e = Some "UNSUPPORTED_VERSION")
        then probeVersions env rest s1
        else (Throw e, s1)
    end.
Proof.
  simpl. unfold try_catch. rewrite bind_run. simpl. rewrite bind_run.
  destruct (sendRequest env _ s) as [[response|e] s1]; [reflexivity|].
  destruct (bool_decide _); reflexivity.
Qed.

(** The probes follow the candidate list: what the loop sends is a prefix
    of the candidates, in order, each at its own version and each with
    [requestTimeout] set to the connection's [connectionTimeout]. *)
Lemma probeVersions_sent (env : Env) (candidates : list Z) (s : State) :
  exists n : nat,
    sent (calls (probeVersions env candidates s).2)
    = sent (calls s)
      ++ map (fun c => apiVersionsRequest env c (connectionTimeout (connection s)))
             (take n candidates).
Proof.
  revert s. induction candidates as [|c rest IH]; intros s.
  - exists 0%nat. simpl. rewrite app_nil_r. reflexivity.
  - rewrite probeVersions_run.
    pose proof (sendRequest_sent env
                  (apiVersionsRequest env c (connectionTimeout (connection s))) s)
      as Hs.
    pose proof (sendRequest_connectionTimeout env
                  (apiVersionsRequest env c (connectionTimeout (connection s))) s)
      as Ht.
    destruct (sendRequest env _ s) as [[response|e] s1]; simpl in Hs, Ht.
    + exists 1%nat. simpl. assumption.
    + case_bool_decide.
      * destruct (IH s1) as [n Hn]. exists (S n).
        rewrite Hn, Hs, Ht, <- app_assoc. reflexivity.
      * exists 1%nat. simpl. assumption.
Qed.




(** The outcome of [apiVersions] on the outcome of the loop: no response
    is the non-retriable error, a response is reduced to the table. *)
Lemma apiVersions_run (env : Env) (s : State) :
  apiVersions env s
  = match probeVersions env (availableVersions env) s with
    | (Return None, s') =>
        (Throw (KafkaJSNonRetriableError "API Versions not supported"), s')
    | (Return (Some response), s') =>
        (Return (reduceVersions (Response.apiVersions response)), s')
    | (Throw e, s') => (Throw e, s')
    end.
Proof.
  unfold apiVersions. rewrite bind_run.
  destruct (probeVersions env (availableVersions env) s) as [[[r|]|e] s'];
    reflexivity.
Qed.

(** When the server rejects every version with [UNSUPPORTED_VERSION], the
    loop runs out of candidates without a response, and [apiVersions]
    throws the non-retriable error. *)
Lemma apiVersions_exhausted (env : Env) (s : State) :
  (forall req cs c now, exists e up now',
      connection_send env req cs c now = (Throw e, up, now')
      /\ KafkaJSError.type e = Some "UNSUPPORTED_VERSION"
      /\ KafkaJSError.name e <> "KafkaJSConnectionClosedError") ->
  (apiVersions env s).1
  = Throw (KafkaJSNonRetriableError "API Versions not supported").
Proof.
  intros Hall. rewrite apiVersions_run.
  assert (H : forall candidates s0,
             (probeVersions env candidates s0).1 = Return None).
  { induction candidates as [|c rest IH]; intros s0; [reflexivity|].
    rewrite probeVersions_run, sendRequest_run. unfold external.
    destruct (Hall (apiVersionsRequest env c (connectionTimeout (connection s0)))
                (calls s0) (connection s0) (clock s0))
      as (e & up & now' & -> & He & Hn).
    apply String.eqb_neq in Hn. rewrite Hn.
    rewrite bool_decide_eq_true_2 by assumption. apply IH. }
  specialize (H (availableVersions env) s).
  destruct (probeVersions env (availableVersions env) s) as [[[r|]|e] s'];
    simpl in H; try discriminate. reflexivity.
Qed.

Lemma reduceVersions_snoc (l : list ApiVersion.t) (v : ApiVersion.t) :
  reduceVersions (l ++ [v])
  = <[ApiVersion.apiKey v := range_of v]> (reduceVersions l).
Proof. unfold reduceVersions. rewrite foldl_snoc. reflexivity. Qed.

(** X15. The table maps each API key to the range of the last entry of the
    response that carries the key, and has no other key. *)
Lemma reduceVersions_lookup (l : list ApiVersion.t) (k : Z) :
  reduceVersions l !! k
  = range_of <$> last (filter (fun v => ApiVersion.apiKey v = k) l).
Proof.
  induction l as [|v l IH] using rev_ind; [reflexivity|].
  rewrite reduceVersions_snoc, filter_app, filter_cons, filter_nil.
  destruct (decide (ApiVersion.apiKey v = k)) as [<-|Hne].
  - rewrite lookup_insert_eq, last_snoc. reflexivity.
  - rewrite lookup_insert_ne by assumption. rewrite app_nil_r. exact IH.
Qed.

(** Scenario S3: candidates {3,2,1,0} against a server that accepts up to
    version 2: version 3 is probed and rejected, version 2 is probed and
    answered, and the table is stored. *)
Example apiVersions_s3 :
  availableVersions env_s3 = [3; 2; 1; 0]
  /\ sent (calls (apiVersions env_s3 (fresh_state true false)).2)
     = [apiVersionsRequest env_s3 3 1000; apiVersionsRequest env_s3 2 1000]
  /\ (apiVersions env_s3 (fresh_state true false)).1
     = Return (reduceVersions (Response.apiVersions versions_response)).
Proof. repeat split; vm_compute; reflexivity. Qed.

Example apiVersions_none :
  (apiVersions env_none (fresh_state true false)).1
  = Throw (KafkaJSNonRetriableError "API Versions not supported").
Proof.
  apply apiVersions_exhausted. intros req cs c now.
  exists UnsupportedVersionProtocolError, (connected c), now.
  repeat split. discriminate.
Qed.







(** ** [connect] *)

Lemma bind_returns {A B} (m : M A) (k : A -> M B) (s s'' : State) (b : B) :
  bind m k s = (Return b, s'') ->
  exists a s', m s = (Return a, s') /\ k a s' = (Return b, s'').
Proof.
  rewrite bind_run. destruct (m s) as [[a|e] s']; [eauto|discriminate].
Qed.

Lemma try_finally_returns {A} (m : M A) (f : M unit) (s s'' : State) (a : A) :
  try_finally m f s = (Return a, s'') ->
  exists s', m s = (Return a, s') /\ f s' = (Return tt, s'').
Proof.
  unfold try_finally. destruct (m s) as [r s'].
  destruct (f s') as [[[]|e] s1] eqn:Hf; intros [= -> ->]. eauto.
Qed.

Lemma external_returns {A} (c : Call) (react : Reaction A) (s s' : State)
    (r : Outcome A) :
  external c react s = (r, s') -> broker s' = broker s.
Proof.
  intros H. pose proof (external_broker c react s) as Hb.
  rewrite H in Hb. exact Hb.
Qed.

Lemma modify_broker_returns (f : Broker -> Broker) (s s' : State) (u : unit) :
  modify_broker f s = (Return u, s') ->
  broker s' = f (broker s) /\ connection s' = connection s
  /\ clock s' = clock s /\ calls s' = calls s.
Proof. destruct u. intros [= <-]. repeat split. Qed.

(** C6, as the code has it. A new broker holds the sentinel, which throws
    [Error('Broker not connected')] whatever it is called with. A
    [connect()] that, once it holds the lock, does not find the broker
    connected and then returns successfully leaves [lookupRequest] as
    [lookup(versions)], not the sentinel; a [connect()] that finds the
    broker connected returns at once and leaves every field, the
    [lookupRequest] included, as it was. *)
Theorem connect_lookupRequest (env : Env) (s s1 s' : State) :
  (forall o : BrokerOptions,
     lookupRequest (new_Broker o) = notInitializedLookup)
  /\ (forall apiKey family,
        call_lookupRequest notInitializedLookup apiKey family
        = Throw (JsError "Broker not connected"))
  /\ (external CallLockAcquire (lock_acquire env) s = (Return tt, s1) ->
      connect env s = (Return tt, s') ->
      if isConnected (clock s1) (connection s1) (broker s1)
      then broker s' = broker s
      else exists vs, lookupRequest (broker s') = lookup vs
                      /\ versions (broker s') = Some vs).
Proof.
  split; [reflexivity|]. split; [reflexivity|].
  intros Hl Hc. unfold connect in Hc.
  apply try_finally_returns in Hc as (s2 & Hbody & [= <-]). simpl.
  apply bind_returns in Hbody as ([] & s1' & Hl' & Hbody).
  rewrite Hl in Hl'. injection Hl' as <-.
  apply bind_returns in Hbody as (s1' & ? & [= <- <-] & Hbody).
  destruct (isConnected (clock s1) (connection s1) (broker s1)).
  { injection Hbody as <-. eapply external_returns; eassumption. }
  apply bind_returns in Hbody as ([] & s3 & [= <-] & Hbody).
  apply bind_returns in Hbody as ([] & s4 & Hconn & Hbody).
  apply bind_returns in Hbody as (b4 & ? & [= <- <-] & Hbody).
  apply bind_returns in Hbody as (vs & s5 & Hvs & Hbody).
  apply bind_returns in Hbody as ([] & s6 & [= <-] & Hbody).
  apply bind_returns in Hbody as (b6 & ? & [= <- <-] & Hbody).
  apply bind_returns in Hbody as ([] & s7 & Hsup & Hbody).
  apply bind_returns in Hbody as (s7' & ? & [= <- <-] & Hbody).
  exists vs.
  assert (H5 : versions (broker s5) = Some vs).
  { destruct (versions (broker s4)) as [vs4|] eqn:Hv4.
    - injection Hvs as <- <-. assumption.
    - apply bind_returns in Hvs as (vs' & s4' & _ & Hvs).
      apply bind_returns in Hvs as ([] & s4'' & [= <-] & [= <- <-]).
      reflexivity. }
  assert (H7 : lookupRequest (broker s7) = lookup vs
               /\ versions (broker s7) = Some vs).
  { simpl in Hsup.
    destruct (supportAuthenticationProtocol (broker s5));
      [injection Hsup as <-; simpl; auto|].
    destruct (selectVersion _ _ _); injection Hsup as <-; simpl; auto. }
  destruct H7 as [H7l H7v].
  destruct (authenticatedAt (broker s7));
    [injection Hbody as <-; auto|].
  destruct (sasl (connection s7)); [|injection Hbody as <-; auto].
  apply bind_returns in Hbody as (sl & s8 & Hauth & Hbody).
  apply bind_returns in Hbody as (s8' & ? & [= <- <-] & Hbody).
  apply bind_returns in Hbody as ([] & s9 & [= <-] & [= <-]). simpl.
  apply external_returns in Hauth. rewrite Hauth. auto.
Qed.

(** Scenario S3 continued: a first [connect()] on a transport that is down
    negotiates the versions and installs the lookup. *)
Lemma connect_lookupRequest_witness :
  exists vs,
    lookupRequest (broker (connect env_s3 (fresh_state false false)).2)
    = lookup vs
    /\ versions (broker (connect env_s3 (fresh_state false false)).2) = Some vs.
Proof.
  exact (proj2 (proj2 (connect_lookupRequest env_s3 (fresh_state false false)
                         (external CallLockAcquire (lock_acquire env_s3)
                            (fresh_state false false)).2
                         (connect env_s3 (fresh_state false false)).2))
           eq_refl eq_refl).
Defined.

(** C6 as stated fails. The first [connect()] brings the transport up and
    then fails in the version negotiation on a request timeout; the second
    [connect()] finds the transport up, returns successfully at once, and
    [lookupRequest] is still the sentinel. *)
Lemma connect_returns_with_sentinel :
  lookupRequest (broker (fresh_state false false)) = notInitializedLookup
  /\ (connect env_timeout (fresh_state false false)).1
     = Throw RequestTimeoutError
  /\ (connect env_timeout (connect env_timeout (fresh_state false false)).2).1
     = Return tt
  /\ lookupRequest
       (broker (connect env_timeout
                  (connect env_timeout (fresh_state false false)).2).2)
     = notInitializedLookup.
Proof. repeat split; vm_compute; reflexivity. Qed.

(** The same on a connection that was handed over already connected. *)
Example connect_on_connected_transport :
  (connect env_quiet (fresh_state true false)).1 = Return tt
  /\ lookupRequest (broker (connect env_quiet (fresh_state true false)).2)
     = notInitializedLookup.
Proof. split; reflexivity. Qed.

(** ** [joinGroup] *)

(** The retry differs from the first request in the member id only. *)
Lemma joinGroupRequest_memberId (env : Env) (version : Z) (a : JoinGroupArgs)
    (m0 m : string) :
  Request.apiKey (joinGroupRequest env version a m)
  = Request.apiKey (joinGroupRequest env version a m0)
  /\ Request.apiVersion (joinGroupRequest env version a m)
     = Request.apiVersion (joinGroupRequest env version a m0)
  /\ Request.requestTimeout (joinGroupRequest env version a m)
     = Request.requestTimeout (joinGroupRequest env version a m0)
  /\ (forall p0,
        Request.payload (joinGroupRequest env version a m0) = JoinGroupPayload p0 ->
        Request.payload (joinGroupRequest env version a m)
        = JoinGroupPayload (JoinGroup.with_memberId m p0)
        /\ JoinGroup.memberId p0 = m0).
Proof.
  repeat split; try reflexivity; injection H as <-; reflexivity.
Qed.

Lemma joinGroup_run (env : Env) (a : JoinGroupArgs) (s : State) (version : Z) :
  call_lookupRequest (lookupRequest (broker s))
    (apiKeys_JoinGroup env) (requests_JoinGroup env) = Return version ->
  joinGroup env a s
  = match sendRequest env
            (joinGroupRequest env version a (default "" (arg_memberId a))) s with
    | (Return resp, s1) => (Return resp, s1)
    | (Throw error, s1) =>
        if String.eqb (KafkaJSError.name error) "KafkaJSMemberIdRequired"
        then sendRequest env
               (joinGroupRequest env version a
                  (default (default "" (arg_memberId a))
                     (KafkaJSError.memberId error))) s1
        else (Throw error, s1)
    end.
Proof.
  intros Hv. unfold joinGroup. rewrite bind_run. simpl.
  rewrite bind_run. unfold lift at 1. rewrite Hv. unfold try_catch. simpl.
  destruct (sendRequest env _ s) as [[resp|error] s1]; [reflexivity|].
  destruct (String.eqb _ _); reflexivity.
Qed.

(** C7. Once the JoinGroup factory is resolved, [joinGroup] sends its
    request once. If the answer is a response, or an error other than
    [KafkaJSMemberIdRequired], that is the outcome and nothing else is
    sent. If the first request fails with [KafkaJSMemberIdRequired], one
    retry is sent, equal to the first request but for the member id, which
    is the one the error carries; the outcome of the retry, a response or
    an error, is the outcome of [joinGroup], and two requests were sent. In
    every case one or two requests are sent. *)
Theorem joinGroup_retries_once (env : Env) (a : JoinGroupArgs) (s : State)
    (version : Z) :
  call_lookupRequest (lookupRequest (broker s))
    (apiKeys_JoinGroup env) (requests_JoinGroup env) = Return version ->
  forall first : Request.t,
    first = joinGroupRequest env version a (default "" (arg_memberId a)) ->
    (forall resp,
       (sendRequest env first s).1 = Return resp ->
       joinGroup env a s = sendRequest env first s
       /\ sent (calls (joinGroup env a s).2) = sent (calls s) ++ [first])
    /\ (forall e,
          (sendRequest env first s).1 = Throw e ->
          KafkaJSError.name e <> "KafkaJSMemberIdRequired" ->
          joinGroup env a s = sendRequest env first s
          /\ sent (calls (joinGroup env a s).2) = sent (calls s) ++ [first])
    /\ (forall e m retry,
          (sendRequest env first s).1 = Throw e ->
          KafkaJSError.name e = "KafkaJSMemberIdRequired" ->
          KafkaJSError.memberId e = Some m ->
          retry = joinGroupRequest env version a m ->
          joinGroup env a s = sendRequest env retry (sendRequest env first s).2
          /\ sent (calls (joinGroup env a s).2)
             = sent (calls s) ++ [first; retry])
    /\ (sent (calls (joinGroup env a s).2) = sent (calls s) ++ [first]
        \/ exists retry,
             sent (calls (joinGroup env a s).2)
             = sent (calls s) ++ [first; retry]).
Proof.
  intros Hv first ->. rewrite (joinGroup_run env a s version Hv).
  pose proof (sendRequest_sent env
                (joinGroupRequest env version a (default "" (arg_memberId a))) s)
    as Hs.
  destruct (sendRequest env _ s) as [[resp|error] s1]; simpl in *.
  - split; [auto|]. split; [intros e He; discriminate|].
    split; [intros e m retry He; discriminate | left; assumption].
  - split; [intros resp Hr; discriminate|].
    split; [|split].
    + intros e [= <-] Hn. apply String.eqb_neq in Hn. rewrite Hn. auto.
    + intros e m retry [= <-] Hn Hm ->. apply String.eqb_eq in Hn.
      rewrite Hn, Hm. simpl. split; [reflexivity|].
      rewrite sendRequest_sent, Hs, <- app_assoc. reflexivity.
    + destruct (String.eqb _ _); [|left; assumption].
      right. eexists.
      rewrite sendRequest_sent, Hs, <- app_assoc. reflexivity.
Qed.

(** Scenario S4: a join without member id, [MEMBER_ID_REQUIRED(m-7)], a
    retry with member id [m-7], success; two requests. *)
Lemma joinGroup_retries_once_witness :
  (joinGroup env_s4 join_g connected_state).1 = Return empty_response
  /\ sent (calls (joinGroup env_s4 join_g connected_state).2)
     = [joinGroupRequest env_s4 4 join_g ""; joinGroupRequest env_s4 4 join_g "m-7"].
Proof.
  destruct (proj1 (proj2 (proj2 (joinGroup_retries_once env_s4 join_g
                                   connected_state 4 eq_refl
                                   (joinGroupRequest env_s4 4 join_g "")
                                   eq_refl)))
              (MemberIdRequired "m-7") "m-7"
              (joinGroupRequest env_s4 4 join_g "m-7")
              eq_refl eq_refl eq_refl eq_refl)
    as [H1 H2].
  split; [rewrite H1; reflexivity | exact H2].
Defined.

(** A coordinator that answers [MEMBER_ID_REQUIRED] twice: two requests,
    and the second error reaches the caller. *)
Example joinGroup_member_id_required_twice :
  (joinGroup env_member_id_twice join_g connected_state).1
  = Throw (MemberIdRequired "m-7")
  /\ sent (calls (joinGroup env_member_id_twice join_g connected_state).2)
     = [joinGroupRequest env_member_id_twice 4 join_g "";
        joinGroupRequest env_member_id_twice 4 join_g "m-7"].
Proof. split; vm_compute; reflexivity. Qed.

(** Before [connect()], [joinGroup] fails on the sentinel and sends
    nothing. *)
Example joinGroup_not_connected :
  joinGroup env_s4 join_g (fresh_state true false)
  = (Throw (JsError "Broker not connected"), fresh_state true false).
Proof. reflexivity. Qed.

(** ** [fetch] *)

(** The first [reduce] lists the pairs of the caller's topics in order. *)
Lemma flattenTopicPartitions_pairs (topics : list Fetch.Topic) :
  flattenTopicPartitions topics = topicPartitionPairs topics.
Proof.
  unfold flattenTopicPartitions, topicPartitionPairs.
  assert (Hin : forall (t : Fetch.Topic) (ps : list Fetch.Partition) acc,
             foldl (fun acc partition => acc ++ [(Fetch.topic t, partition)])
                   acc ps
             = acc ++ map (pair (Fetch.topic t)) ps).
  { intros t ps. induction ps as [|p ps IH]; intros acc; simpl.
    - rewrite app_nil_r. reflexivity.
    - rewrite IH, <- app_assoc. reflexivity. }
  assert (Hout : forall ts acc,
             foldl (fun topicPartitions t =>
                      foldl (fun acc partition =>
                               acc ++ [(Fetch.topic t, partition)])
                            topicPartitions (Fetch.partitions t))
                   acc ts
             = acc ++ (ts ≫= (fun t => map (pair (Fetch.topic t))
                                           (Fetch.partitions t)))).
  { induction ts as [|t ts IH]; intros acc; simpl.
    - rewrite app_nil_r. reflexivity.
    - rewrite IH, Hin, <- app_assoc. reflexivity. }
  apply (Hout topics []).
Qed.

Lemma topicPartitionPairs_app (l1 l2 : list Fetch.Topic) :
  topicPartitionPairs (l1 ++ l2)
  = topicPartitionPairs l1 ++ topicPartitionPairs l2.
Proof. unfold topicPartitionPairs. apply bind_app. Qed.

Lemma last_Some_snoc {A} (l : list A) (x : A) :
  last l = Some x -> exists l', l = l' ++ [x].
Proof.
  destruct l as [|y l] using rev_ind; [discriminate|].
  rewrite last_snoc. intros [= ->]. eauto.
Qed.

Lemma alter_last {A} (f : A -> A) (l : list A) (x : A) :
  alter f (pred (length (l ++ [x]))) (l ++ [x]) = l ++ [f x].
Proof.
  rewrite length_app. simpl.
  replace (pred (length l + 1)) with (length l + 0)%nat by lia.
  rewrite alter_app_r. reflexivity.
Qed.

(** One step of the second [reduce], on a list that ends in [last_]. *)
Lemma consolidateStep_snoc (init : list Fetch.Topic) (last_ : Fetch.Topic)
    (topic : string) (partition : Fetch.Partition) :
  consolidateStep (init ++ [last_]) (topic, partition)
  = if String.eqb (Fetch.topic last_) topic
    then init ++ [{| Fetch.topic := Fetch.topic last_;
                     Fetch.partitions := Fetch.partitions last_ ++ [partition] |}]
    else init ++ [last_]
           ++ [{| Fetch.topic := topic; Fetch.partitions := [partition] |}].
Proof.
  unfold consolidateStep. rewrite last_snoc.
  destruct (String.eqb _ _);
    [rewrite alter_last; reflexivity | rewrite <- app_assoc; reflexivity].
Qed.

(** Re-grouping loses and duplicates nothing: the pairs of the consolidated
    list are the shuffled pairs, in the same order. *)
Lemma consolidate_pairs (shuffled : list (string * Fetch.Partition)) :
  topicPartitionPairs (consolidateTopicPartitions shuffled) = shuffled.
Proof.
  unfold consolidateTopicPartitions.
  induction shuffled as [|[topic partition] l IH] using rev_ind; [reflexivity|].
  rewrite foldl_snoc.
  destruct (last (foldl consolidateStep [] l)) as [last_|] eqn:Hlast.
  - apply last_Some_snoc in Hlast as [init Hinit]. rewrite Hinit in IH |- *.
    rewrite consolidateStep_snoc.
    rewrite topicPartitionPairs_app in IH.
    destruct (String.eqb_spec (Fetch.topic last_) topic) as [<-|_].
    + rewrite topicPartitionPairs_app, <- IH.
      unfold topicPartitionPairs at 2 4. simpl.
      rewrite !app_nil_r, map_app, app_assoc. reflexivity.
    + rewrite app_assoc, topicPartitionPairs_app, topicPartitionPairs_app, IH.
      reflexivity.
  - apply last_None in Hlast. rewrite Hlast in IH |- *.
    simpl in IH |- *. rewrite <- IH. reflexivity.
Qed.

Lemma no_adjacent_snoc (l : list Fetch.Topic) (x y : Fetch.Topic) :
  no_adjacent_same_topic (l ++ [x]) ->
  Fetch.topic x <> Fetch.topic y ->
  no_adjacent_same_topic ((l ++ [x]) ++ [y]).
Proof.
  intros Hl Hxy i t1 t2 H1 H2.
  destruct (decide (S i < length (l ++ [x]))%nat) as [Hlt|Hge].
  - rewrite lookup_app_l in H1 by lia. rewrite lookup_app_l in H2 by lia.
    eapply Hl; eassumption.
  - assert (Hi : S i = length (l ++ [x])).
    { apply lookup_lt_Some in H2. rewrite length_app in H2. simpl in H2. lia. }
    rewrite Hi, lookup_app_r, Nat.sub_diag in H2 by lia.
    injection H2 as <-.
    rewrite length_app in Hi. simpl in Hi.
    rewrite lookup_app_l in H1 by (rewrite length_app; simpl; lia).
    rewrite lookup_app_r in H1 by lia.
    replace (i - length l)%nat with 0%nat in H1 by lia.
    injection H1 as <-. assumption.
Qed.

Lemma no_adjacent_alter_last (l : list Fetch.Topic) (x x' : Fetch.Topic) :
  no_adjacent_same_topic (l ++ [x]) ->
  Fetch.topic x' = Fetch.topic x ->
  no_adjacent_same_topic (l ++ [x']).
Proof.
  intros Hl Hx i t1 t2 H1 H2.
  assert (Hi : (S i < length l + 1)%nat).
  { apply lookup_lt_Some in H2. rewrite length_app in H2. simpl in H2. lia. }
  rewrite lookup_app_l in H1 by lia.
  destruct (decide (S i < length l)%nat) as [Hlt|Hge].
  - rewrite lookup_app_l in H2 by lia.
    apply (Hl i t1 t2); rewrite lookup_app_l by lia; assumption.
  - rewrite lookup_app_r in H2 by lia.
    replace (S i - length l)%nat with 0%nat in H2 by lia.
    injection H2 as <-. rewrite Hx.
    apply (Hl i t1 x).
    + rewrite lookup_app_l by lia. assumption.
    + rewrite lookup_app_r by lia.
      replace (S i - length l)%nat with 0%nat by lia. reflexivity.
Qed.

(** Neighbours of the consolidated list have different topics. *)
Lemma consolidate_no_adjacent (shuffled : list (string * Fetch.Partition)) :
  no_adjacent_same_topic (consolidateTopicPartitions shuffled).
Proof.
  unfold consolidateTopicPartitions.
  induction shuffled as [|[topic partition] l IH] using rev_ind.
  - intros i t1 t2 H1. discriminate.
  - rewrite foldl_snoc.
    destruct (last (foldl consolidateStep [] l)) as [last_|] eqn:Hlast.
    + apply last_Some_snoc in Hlast as [init Hinit]. rewrite Hinit in IH |- *.
      rewrite consolidateStep_snoc.
      destruct (String.eqb_spec (Fetch.topic last_) topic) as [Heq|Hne].
      * eapply no_adjacent_alter_last; [exact IH | reflexivity].
      * rewrite app_assoc. apply no_adjacent_snoc; [exact IH | exact Hne].
    + apply last_None in Hlast. rewrite Hlast. simpl.
      intros i t1 t2 H1 H2. destruct i; discriminate.
Qed.

(** The request [fetch] sends carries [fetchTopics] as its [topics]. *)
Lemma fetch_run (env : Env) (a : FetchArgs) (s : State) (version : Z) :
  call_lookupRequest (lookupRequest (broker s))
    (apiKeys_Fetch env) (requests_Fetch env) = Return version ->
  fetch env a s
  = sendRequest env (fetchRequest env version a (fetchTopics env (arg_topics a))) s
  /\ Request.payload (fetchRequest env version a (fetchTopics env (arg_topics a)))
     = FetchPayload
         {| Fetch.replicaId := arg_replicaId a;
            Fetch.isolationLevel := arg_isolationLevel a;
            Fetch.maxWaitTime := default 5000 (arg_maxWaitTime a);
            Fetch.minBytes := default 1 (arg_minBytes a);
            Fetch.maxBytesTotal := default 10485760 (arg_maxBytes a);
            Fetch.topics := fetchTopics env (arg_topics a);
            Fetch.rackId := default "" (arg_rackId a) |}.
Proof.
  intros Hv. split; [|reflexivity].
  unfold fetch. rewrite bind_run. simpl. rewrite bind_run.
  unfold lift at 1. rewrite Hv. reflexivity.
Qed.

(** The request [fetch] hands to the connection. *)
Lemma fetch_sent (env : Env) (a : FetchArgs) (s : State) (version : Z) :
  call_lookupRequest (lookupRequest (broker s))
    (apiKeys_Fetch env) (requests_Fetch env) = Return version ->
  sent (calls (fetch env a s).2)
  = sent (calls s)
    ++ [fetchRequest env version a (fetchTopics env (arg_topics a))].
Proof.
  intros Hv. destruct (fetch_run env a s version Hv) as [-> _].
  apply sendRequest_sent.
Qed.

(** The pairs of [fetchTopics] are the pairs the shuffle returned, in the
    same order. *)
Lemma fetchTopics_pairs (env : Env) (topics : list Fetch.Topic) :
  topicPartitionPairs (fetchTopics env topics)
  = shuffle env (topicPartitionPairs topics).
Proof.
  unfold fetchTopics.
  rewrite consolidate_pairs, flattenTopicPartitions_pairs. reflexivity.
Qed.

(** C8. Whatever permutation the shuffle produces, [fetch] hands one
    request to the connection, the Fetch request at the looked-up version,
    and its [topics] hold exactly the (topic, partition) pairs of the
    caller's list, as a multiset, with no two adjacent entries of the same
    topic name. *)
Theorem fetch_sends_permutation (env : Env) (a : FetchArgs) (s : State)
    (version : Z) :
  shuffle env (flattenTopicPartitions (arg_topics a))
    ≡ₚ flattenTopicPartitions (arg_topics a) ->
  call_lookupRequest (lookupRequest (broker s))
    (apiKeys_Fetch env) (requests_Fetch env) = Return version ->
  exists (request : Request.t) (p : Fetch.Params),
    sent (calls (fetch env a s).2) = sent (calls s) ++ [request]
    /\ Request.apiKey request = apiKeys_Fetch env
    /\ Request.apiVersion request = version
    /\ Request.payload request = FetchPayload p
    /\ topicPartitionPairs (Fetch.topics p)
         ≡ₚ topicPartitionPairs (arg_topics a)
    /\ no_adjacent_same_topic (Fetch.topics p).
Proof.
  intros Hperm Hv. eexists. eexists.
  split; [apply fetch_sent; exact Hv|].
  split; [reflexivity|]. split; [reflexivity|]. split; [reflexivity|].
  cbn [Fetch.topics]. split.
  - rewrite fetchTopics_pairs, <- flattenTopicPartitions_pairs. exact Hperm.
  - apply consolidate_no_adjacent.
Qed.

(** A list whose reversal brings two entries of topic [a] together, on a
    connected broker. *)
Lemma fetch_sends_permutation_witness :
  exists (request : Request.t) (p : Fetch.Params),
    sent (calls (fetch env_reversing fetch_two connected_state).2)
    = sent (calls connected_state) ++ [request]
    /\ Request.apiKey request = apiKeys_Fetch env_reversing
    /\ Request.apiVersion request = 4
    /\ Request.payload request = FetchPayload p
    /\ topicPartitionPairs (Fetch.topics p)
         ≡ₚ topicPartitionPairs (arg_topics fetch_two)
    /\ no_adjacent_same_topic (Fetch.topics p).
Proof.
  apply (fetch_sends_permutation env_reversing fetch_two connected_state 4);
    [apply reverse_Permutation | reflexivity].
Defined.

(** The request of that fetch, and scenario S2. *)
Example fetch_reversed :
  sent (calls (fetch env_reversing fetch_two connected_state).2)
  = [ fetchRequest env_reversing 4 fetch_two
        [ {| Fetch.topic := "a";
             Fetch.partitions := [fetch_partition 2] |};
          {| Fetch.topic := "b"; Fetch.partitions := [fetch_partition 0] |};
          {| Fetch.topic := "a";
             Fetch.partitions := [fetch_partition 1; fetch_partition 0] |} ] ]
  /\ fetchTopics env_quiet topics_s2 = topics_s2.
Proof. split; reflexivity. Qed.

(** ** [listOffsets] *)

(** A record with an [offsets] array loses [offsets] and gains [offset],
    the last element of the array ([undefined] when the array is empty);
    a record without [offsets] is returned as it is. *)
Lemma normalizePartition_spec (p : PartitionData) :
  (forall elements,
     p !! "offsets" = Some (VArray elements) ->
     normalizePartition p
     = Return (<["offset" := default VUndefined (last elements)]>
                 (delete "offsets" p)))
  /\ (p !! "offsets" = None -> normalizePartition p = Return p).
Proof.
  unfold normalizePartition. split.
  - intros elements ->. reflexivity.
  - intros Hnone. rewrite Hnone. simpl.
    rewrite delete_id by assumption. reflexivity.
Qed.

Lemma mapOutcome_Forall2 {A B} (f : A -> Outcome B) (l : list A) (l' : list B) :
  mapOutcome f l = Return l' -> Forall2 (fun x y => f x = Return y) l l'.
Proof.
  revert l'. induction l as [|x l IH]; intros l'; simpl.
  - intros [= <-]. constructor.
  - destruct (f x) as [y|e] eqn:Hx; [|discriminate].
    destruct (mapOutcome f l) as [ys|e]; [|discriminate].
    intros [= <-]. constructor; [assumption | apply IH; reflexivity].
Qed.

Lemma listOffsets_run (env : Env) (a : ListOffsets.Params) (s : State)
    (version : Z) :
  call_lookupRequest (lookupRequest (broker s))
    (apiKeys_ListOffsets env) (requests_ListOffsets env) = Return version ->
  listOffsets env a s
  = match sendRequest env (listOffsetsRequest env version a) s with
    | (Return result, s') =>
        match mapOutcome normalizeTopicResponse (Response.responses result) with
        | Return responses =>
            (Return (Response.with_responses responses result), s')
        | Throw e => (Throw e, s')
        end
    | (Throw e, s') => (Throw e, s')
    end.
Proof.
  intros Hv. unfold listOffsets. rewrite bind_run. simpl.
  rewrite bind_run. unfold lift at 1. rewrite Hv. rewrite bind_run.
  destruct (sendRequest env _ s) as [[result|e] s']; [|reflexivity].
  rewrite bind_run. unfold lift.
  destruct (mapOutcome _ _); reflexivity.
Qed.

(** C9. In a response returned by [listOffsets] every topic entry of the
    server's answer is kept, and each of its partition records is replaced
    as follows: a record that contained an [offsets] array becomes the same
    record without [offsets] and with [offset] set to the last element of
    the array; a record without [offsets] is unchanged. *)
Theorem listOffsets_normalises (env : Env) (a : ListOffsets.Params)
    (s s' : State) (version : Z) (result : Response.t) :
  call_lookupRequest (lookupRequest (broker s))
    (apiKeys_ListOffsets env) (requests_ListOffsets env) = Return version ->
  listOffsets env a s = (Return result, s') ->
  exists raw,
    sendRequest env (listOffsetsRequest env version a) s = (Return raw, s')
    /\ Response.throttleTime result = Response.throttleTime raw
    /\ Response.apiVersions result = Response.apiVersions raw
    /\ Forall2
         (fun r r' =>
            ListOffsets.topic r' = ListOffsets.topic r
            /\ Forall2
                 (fun (p p' : PartitionData) =>
                    (forall elements,
                       p !! "offsets" = Some (VArray elements) ->
                       p' = <["offset" := default VUndefined (last elements)]>
                              (delete "offsets" p))
                    /\ (p !! "offsets" = None -> p' = p))
                 (ListOffsets.partitions r) (ListOffsets.partitions r'))
         (Response.responses raw) (Response.responses result).
Proof.
  intros Hv. rewrite (listOffsets_run env a s version Hv).
  destruct (sendRequest env _ s) as [[raw|e] s1]; [|discriminate].
  destruct (mapOutcome normalizeTopicResponse (Response.responses raw))
    as [responses|e] eqn:Hmap; [|discriminate].
  intros [= <- <-]. exists raw. repeat split.
  apply mapOutcome_Forall2 in Hmap. simpl.
  eapply Forall2_impl; [exact Hmap|].
  intros r r' Hr. cbv beta in Hr. unfold normalizeTopicResponse in Hr.
  destruct (mapOutcome normalizePartition (ListOffsets.partitions r))
    as [ps|e] eqn:Hps; [|discriminate].
  injection Hr as <-. simpl. split; [reflexivity|].
  apply mapOutcome_Forall2 in Hps.
  eapply Forall2_impl; [exact Hps|].
  intros p p' Hp. cbv beta in Hp.
  destruct (normalizePartition_spec p) as [Harr Hnone].
  split.
  - intros elements He. rewrite (Harr elements He) in Hp.
    injection Hp as <-. reflexivity.
  - intros He. rewrite (Hnone He) in Hp. injection Hp as <-. reflexivity.
Qed.

(** X21. When the send succeeds and every [offsets] of the answer is an array,
    [listOffsets] does return. *)
Lemma listOffsets_returns (env : Env) (a : ListOffsets.Params)
    (s s' : State) (version : Z) (raw : Response.t) :
  call_lookupRequest (lookupRequest (broker s))
    (apiKeys_ListOffsets env) (requests_ListOffsets env) = Return version ->
  sendRequest env (listOffsetsRequest env version a) s = (Return raw, s') ->
  Forall (fun r =>
            Forall (fun p : PartitionData =>
                      p !! "offsets" = None
                      \/ exists elements, p !! "offsets" = Some (VArray elements))
                   (ListOffsets.partitions r))
         (Response.responses raw) ->
  exists result, listOffsets env a s = (Return result, s').
Proof.
  intros Hv Hsend Hwf. rewrite (listOffsets_run env a s version Hv), Hsend.
  assert (Hp : forall ps : list PartitionData,
             Forall (fun p : PartitionData =>
                       p !! "offsets" = None
                       \/ exists elements, p !! "offsets" = Some (VArray elements))
                    ps ->
             exists ps', mapOutcome normalizePartition ps = Return ps').
  { induction 1 as [|p ps Hp _ [ps' IH]]; [eexists; reflexivity|].
    simpl. destruct (normalizePartition_spec p) as [Harr Hnone].
    destruct Hp as [Hp|[elements Hp]];
      [rewrite (Hnone Hp) | rewrite (Harr elements Hp)];
      rewrite IH; eexists; reflexivity. }
  assert (Hr : exists rs, mapOutcome normalizeTopicResponse
                            (Response.responses raw) = Return rs).
  { induction Hwf as [|r rs Hr _ [rs' IH]]; [eexists; reflexivity|].
    simpl. unfold normalizeTopicResponse at 1.
    destruct (Hp _ Hr) as [ps' ->]. rewrite IH. eexists; reflexivity. }
  destruct Hr as [rs ->]. eexists; reflexivity.
Qed.

(** A v0 answer with [offsets: ['30','20','10']]: the returned record has
    [offset = '10'] and no [offsets]; the record that already had a scalar
    [offset] is unchanged. *)
Lemma listOffsets_normalises_witness :
  (listOffsets env_offsets offsets_of_t connected_state).1
  = Return normalised_offsets_response
  /\ exists raw,
       sendRequest env_offsets (listOffsetsRequest env_offsets 2 offsets_of_t)
         connected_state
       = (Return raw, (listOffsets env_offsets offsets_of_t connected_state).2)
       /\ raw = offsets_response.
Proof.
  split; [reflexivity|].
  destruct (listOffsets_normalises env_offsets offsets_of_t connected_state
              (listOffsets env_offsets offsets_of_t connected_state).2 2
              normalised_offsets_response eq_refl eq_refl)
    as (raw & Hsend & _).
  exists raw. split; [exact Hsend|].
  pose proof (eq_refl :
    (sendRequest env_offsets (listOffsetsRequest env_offsets 2 offsets_of_t)
       connected_state).1 = Return offsets_response) as Hraw.
  rewrite Hsend in Hraw. injection Hraw as ->. reflexivity.
Defined.

(** * Further properties *)

(** ** The re-authentication policy over time *)

(** The predicate as one comparison, for an authenticated broker with a
    session that expires. *)
Lemma shouldReauthenticate_elapsed (now at_ : HrTime) (b : Broker) :
  sessionLifetime b <> 0 -> authenticatedAt b = Some at_ ->
  wf_hrtime now -> wf_hrtime at_ ->
  shouldReauthenticate now b
  = (sessionLifetime b
     <=? Long.wrap (elapsedMillis now at_ + reauthenticationThreshold b)).
Proof.
  intros Hl Hat Hn Ha. unfold shouldReauthenticate, Long.equals, Long.ZERO.
  rewrite Hat. destruct (Z.eqb_spec (sessionLifetime b) 0); [contradiction|].
  rewrite millisSince_elapsed by assumption.
  unfold Long.add, Long.fromValue, Long.greaterThanOrEqual.
  rewrite wrap_add_r, wrap_add_l. reflexivity.
Qed.

Lemma elapsedMillis_mono (now now' at_ : HrTime) :
  total_nanos now <= total_nanos now' ->
  elapsedMillis now at_ <= elapsedMillis now' at_.
Proof.
  intros H. unfold elapsedMillis. apply Z.div_le_mono; lia.
Qed.

(** X1. Once the predicate asks for re-authentication it keeps asking as
    the clock advances, as long as the sum of elapsed time and threshold
    fits 64 bits. *)
Theorem shouldReauthenticate_monotone (now now' at_ : HrTime) (b : Broker) :
  authenticatedAt b = Some at_ ->
  wf_hrtime now -> wf_hrtime now' -> wf_hrtime at_ ->
  total_nanos now <= total_nanos now' ->
  Long.inRange (elapsedMillis now at_ + reauthenticationThreshold b) ->
  Long.inRange (elapsedMillis now' at_ + reauthenticationThreshold b) ->
  shouldReauthenticate now b = true ->
  shouldReauthenticate now' b = true.
Proof.
  intros Hat Hn Hn' Ha Hle Hr Hr'.
  destruct (Z.eq_dec (sessionLifetime b) 0) as [H0|H0].
  - unfold shouldReauthenticate, Long.equals, Long.ZERO. rewrite H0.
    discriminate.
  - rewrite !(shouldReauthenticate_elapsed _ at_ b) by assumption.
    rewrite !wrap_inRange by assumption. rewrite !Z.leb_le.
    pose proof (elapsedMillis_mono now now' at_ Hle). lia.
Qed.

Lemma shouldReauthenticate_monotone_witness :
  shouldReauthenticate (after_seconds 70) authenticated_broker = true.
Proof.
  apply (shouldReauthenticate_monotone (after_seconds 55) (after_seconds 70)
           epoch authenticated_broker);
    first [reflexivity | vm_compute; intuition discriminate].
Defined.

(** ** The candidate order on small families *)

Lemma availableVersions_descending_below_10_witness :
  StronglySorted Z.gt (availableVersions env_s3)
  /\ availableVersions env_s3 ≡ₚ requests_ApiVersions env_s3.
Proof.
  apply (availableVersions_descending_below_10 env_s3).
  - compute_done.
  - compute_done.
Defined.

(** ** More on [fetch] *)

(** X16. The topics of the request [fetch] hands to the connection list the
    pairs in exactly the order the shuffle returned them: flattening
    follows the caller's order and re-grouping never reorders. *)
Theorem fetch_sends_shuffled_order (env : Env) (a : FetchArgs) (s : State)
    (version : Z) :
  call_lookupRequest (lookupRequest (broker s))
    (apiKeys_Fetch env) (requests_Fetch env) = Return version ->
  exists (request : Request.t) (p : Fetch.Params),
    sent (calls (fetch env a s).2) = sent (calls s) ++ [request]
    /\ Request.payload request = FetchPayload p
    /\ topicPartitionPairs (Fetch.topics p)
       = shuffle env (topicPartitionPairs (arg_topics a)).
Proof.
  intros Hv. eexists. eexists.
  split; [apply fetch_sent; exact Hv|]. split; [reflexivity|].
  cbn [Fetch.topics]. apply fetchTopics_pairs.
Qed.

Lemma fetch_sends_shuffled_order_witness :
  exists (request : Request.t) (p : Fetch.Params),
    sent (calls (fetch env_reversing fetch_two connected_state).2)
    = sent (calls connected_state) ++ [request]
    /\ Request.payload request = FetchPayload p
    /\ topicPartitionPairs (Fetch.topics p)
       = shuffle env_reversing (topicPartitionPairs (arg_topics fetch_two)).
Proof.
  apply (fetch_sends_shuffled_order env_reversing fetch_two connected_state 4).
  reflexivity.
Defined.

Lemma consolidate_no_empty (shuffled : list (string * Fetch.Partition)) :
  no_empty_topic (consolidateTopicPartitions shuffled).
Proof.
  unfold consolidateTopicPartitions, no_empty_topic.
  induction shuffled as [|[topic partition] l IH] using rev_ind;
    [constructor|].
  rewrite foldl_snoc.
  destruct (last (foldl consolidateStep [] l)) as [last_|] eqn:Hlast.
  - apply last_Some_snoc in Hlast as [init Hinit]. rewrite Hinit in IH |- *.
    rewrite consolidateStep_snoc.
    apply Forall_app in IH as [Hi Hl].
    destruct (String.eqb _ _); apply Forall_app; (split; [assumption|]).
    + constructor; [|constructor]. simpl. intros H.
      apply app_eq_nil in H as [_ H]. discriminate.
    + apply Forall_app. split; [assumption|].
      constructor; [discriminate | constructor].
  - apply last_None in Hlast. rewrite Hlast. simpl.
    constructor; [discriminate | constructor].
Qed.

(** A topic that has a pair among those of a topic list is an entry of the
    list with at least one partition, and conversely. *)
Lemma topicPartitionPairs_elem (topics : list Fetch.Topic) (topic : string)
    (partition : Fetch.Partition) :
  (topic, partition) ∈ topicPartitionPairs topics
  <-> exists t, t ∈ topics /\ Fetch.topic t = topic
                /\ partition ∈ Fetch.partitions t.
Proof.
  unfold topicPartitionPairs. rewrite list_elem_of_bind. split.
  - intros (t & Hin & Ht). exists t. split; [assumption|].
    apply list_elem_of_In, in_map_iff in Hin as (q & [= <- <-] & Hq).
    split; [reflexivity | apply list_elem_of_In; assumption].
  - intros (t & Ht & <- & Hq). exists t. split; [|assumption].
    apply list_elem_of_In, in_map_iff. exists partition.
    split; [reflexivity | apply list_elem_of_In; assumption].
Qed.

(** X17. No topic entry of the request [fetch] hands to the connection has
    an empty [partitions] array; and, with a shuffle that permutes, every
    entry carries the name of a topic the caller passed with at least one
    partition: a topic passed with no partitions contributes no entry. *)
Theorem fetch_sends_no_empty_topic (env : Env) (a : FetchArgs) (s : State)
    (version : Z) :
  call_lookupRequest (lookupRequest (broker s))
    (apiKeys_Fetch env) (requests_Fetch env) = Return version ->
  exists (request : Request.t) (p : Fetch.Params),
    sent (calls (fetch env a s).2) = sent (calls s) ++ [request]
    /\ Request.payload request = FetchPayload p
    /\ no_empty_topic (Fetch.topics p)
    /\ (shuffle env (topicPartitionPairs (arg_topics a))
          ≡ₚ topicPartitionPairs (arg_topics a) ->
        forall t : Fetch.Topic,
          t ∈ Fetch.topics p ->
          exists t0 : Fetch.Topic,
            t0 ∈ arg_topics a /\ Fetch.topic t0 = Fetch.topic t
            /\ Fetch.partitions t0 <> []).
Proof.
  intros Hv. eexists. eexists.
  split; [apply fetch_sent; exact Hv|]. split; [reflexivity|].
  cbn [Fetch.topics]. split; [apply consolidate_no_empty|].
  intros Hperm t Ht.
  pose proof (consolidate_no_empty
                (shuffle env (flattenTopicPartitions (arg_topics a)))) as Hne.
  unfold no_empty_topic in Hne. rewrite Forall_forall in Hne.
  specialize (Hne t Ht).
  destruct (Fetch.partitions t) as [|q qs] eqn:Hq; [contradiction|].
  assert (Hin : (Fetch.topic t, q)
                ∈ topicPartitionPairs (fetchTopics env (arg_topics a))).
  { apply topicPartitionPairs_elem. exists t. split; [exact Ht|].
    split; [reflexivity|]. rewrite Hq. left. }
  rewrite fetchTopics_pairs, Hperm in Hin.
  apply topicPartitionPairs_elem in Hin as (t0 & Ht0 & Htopic & Hq0).
  exists t0. split; [assumption|]. split; [assumption|].
  intros Hnil. rewrite Hnil in Hq0. inversion Hq0.
Qed.

(** Topic [b] is passed without partitions: the request has no entry for
    it, and the two entries of topic [a] around it become one. *)
Lemma fetch_sends_no_empty_topic_witness :
  (exists (request : Request.t) (p : Fetch.Params),
     sent (calls (fetch env_quiet fetch_with_empty connected_state).2)
     = sent (calls connected_state) ++ [request]
     /\ Request.payload request = FetchPayload p
     /\ no_empty_topic (Fetch.topics p)
     /\ (shuffle env_quiet (topicPartitionPairs (arg_topics fetch_with_empty))
           ≡ₚ topicPartitionPairs (arg_topics fetch_with_empty) ->
         forall t : Fetch.Topic,
           t ∈ Fetch.topics p ->
           exists t0 : Fetch.Topic,
             t0 ∈ arg_topics fetch_with_empty
             /\ Fetch.topic t0 = Fetch.topic t
             /\ Fetch.partitions t0 <> []))
  /\ sent (calls (fetch env_quiet fetch_with_empty connected_state).2)
     = [ fetchRequest env_quiet 4 fetch_with_empty
           [ {| Fetch.topic := "a";
                Fetch.partitions := [fetch_partition 0; fetch_partition 1] |} ] ].
Proof.
  split; [|reflexivity].
  apply (fetch_sends_no_empty_topic env_quiet fetch_with_empty
           connected_state 4).
  reflexivity.
Defined.

(** Pairs of one topic, in a row, all join the entry of that topic. *)
Lemma consolidate_run_of_topic (init : list Fetch.Topic) (topic : string)
    (ps qs : list Fetch.Partition) :
  foldl consolidateStep
    (init ++ [{| Fetch.topic := topic; Fetch.partitions := ps |}])
    (map (pair topic) qs)
  = init ++ [{| Fetch.topic := topic; Fetch.partitions := ps ++ qs |}].
Proof.
  revert ps. induction qs as [|q qs IH]; intros ps; cbn [map foldl].
  - rewrite app_nil_r. reflexivity.
  - rewrite consolidateStep_snoc. cbn [Fetch.topic Fetch.partitions].
    rewrite String.eqb_refl.
    rewrite IH, <- app_assoc. reflexivity.
Qed.

Lemma no_adjacent_app_l (l1 l2 : list Fetch.Topic) :
  no_adjacent_same_topic (l1 ++ l2) -> no_adjacent_same_topic l1.
Proof.
  intros H i t1 t2 H1 H2. apply (H i t1 t2).
  - rewrite lookup_app_l; [assumption | eapply lookup_lt_Some; eassumption].
  - rewrite lookup_app_l; [assumption | eapply lookup_lt_Some; eassumption].
Qed.

(** X18. Flattening and re-grouping is the identity on a topic list that
    has no empty entry and no two adjacent entries of the same topic: with
    a shuffle that leaves the pairs in place the request carries the
    caller's list unchanged. *)
Theorem consolidate_flatten_id (topics : list Fetch.Topic) :
  no_empty_topic topics -> no_adjacent_same_topic topics ->
  consolidateTopicPartitions (flattenTopicPartitions topics) = topics.
Proof.
  rewrite flattenTopicPartitions_pairs.
  unfold consolidateTopicPartitions, no_empty_topic.
  induction topics as [|[topic parts] ts IH] using rev_ind;
    intros Hne Hadj; [reflexivity|].
  apply Forall_app in Hne as [Hne Hlast].
  apply Forall_cons in Hlast as [Hparts _]. simpl in Hparts.
  rewrite topicPartitionPairs_app, foldl_app.
  rewrite IH by (try assumption; eapply no_adjacent_app_l; eassumption).
  replace (topicPartitionPairs
             [{| Fetch.topic := topic; Fetch.partitions := parts |}])
    with (map (pair topic) parts)
    by (unfold topicPartitionPairs; simpl; rewrite app_nil_r; reflexivity).
  destruct parts as [|p ps]; [contradiction|]. cbn [map foldl].
  assert (Hfirst : consolidateStep ts (topic, p)
                   = ts ++ [{| Fetch.topic := topic; Fetch.partitions := [p] |}]).
  { destruct (last ts) as [last_|] eqn:Hl.
    - apply last_Some_snoc in Hl as [init ->].
      rewrite consolidateStep_snoc.
      destruct (String.eqb_spec (Fetch.topic last_) topic) as [Heq|_];
        [|rewrite app_assoc; reflexivity].
      exfalso.
      apply (Hadj (length init) last_
               {| Fetch.topic := topic; Fetch.partitions := p :: ps |}).
      + rewrite <- app_assoc. rewrite lookup_app_r by lia.
        rewrite Nat.sub_diag. reflexivity.
      + rewrite lookup_app_r by (rewrite length_app; simpl; lia).
        rewrite length_app. simpl.
        replace (S (length init) - (length init + 1))%nat with 0%nat by lia.
        reflexivity.
      + exact Heq.
    - unfold consolidateStep. rewrite Hl. reflexivity. }
  rewrite Hfirst. apply (consolidate_run_of_topic ts topic [p] ps).
Qed.

Lemma consolidate_flatten_id_witness :
  consolidateTopicPartitions (flattenTopicPartitions topics_two) = topics_two.
Proof.
  apply (consolidate_flatten_id topics_two).
  - repeat constructor; discriminate.
  - intros i t1 t2 H1 H2.
    destruct i as [|[|[|i]]]; simpl in H1, H2; try discriminate;
      injection H1 as <-; injection H2 as <-; discriminate.
Defined.

(** ** More on [listOffsets] *)

(** X19. A normalised record has no [offsets], and normalising it again
    changes nothing. *)
Theorem normalizePartition_idempotent (p p' : PartitionData) :
  normalizePartition p = Return p' ->
  p' !! "offsets" = None /\ normalizePartition p' = Return p'.
Proof.
  intros H.
  assert (Hno : p' !! "offsets" = None).
  { unfold normalizePartition in H.
    destruct (truthy (default VUndefined (p !! "offsets"))).
    - destruct (default VUndefined (p !! "offsets")); try discriminate.
      injection H as <-.
      rewrite lookup_insert_ne by discriminate. apply lookup_delete_eq.
    - injection H as <-. apply lookup_delete_eq. }
  split; [exact Hno|].
  unfold normalizePartition. rewrite Hno. simpl.
  rewrite delete_id by assumption. reflexivity.
Qed.

Lemma normalizePartition_idempotent_witness :
  (<["offset" := VString "10"]> (delete "offsets" partition_with_offsets)
     : PartitionData) !! "offsets" = None
  /\ normalizePartition
       (<["offset" := VString "10"]> (delete "offsets" partition_with_offsets))
     = Return (<["offset" := VString "10"]>
                 (delete "offsets" partition_with_offsets)).
Proof.
  apply (normalizePartition_idempotent partition_with_offsets). reflexivity.
Defined.

(** X20. The test on [offsets] is for truthiness, not for an array. A record
    whose [offsets] is present but falsy ([null], [undefined], [false], [0],
    the empty string) comes back without [offsets] and without a new
    [offset]; a record whose [offsets] is truthy and not an array makes the
    normalisation throw a [TypeError]. *)
Theorem normalizePartition_not_an_array (p : PartitionData) (v : Value) :
  p !! "offsets" = Some v ->
  (forall elements, v <> VArray elements) ->
  if truthy v
  then exists e, normalizePartition p = Throw e
                 /\ KafkaJSError.name e = "TypeError"
  else normalizePartition p = Return (delete "offsets" p).
Proof.
  intros Hv Hna. unfold normalizePartition. rewrite Hv. simpl.
  destruct (truthy v) eqn:Ht; [|reflexivity].
  destruct v; try (eexists; split; reflexivity).
  exfalso. eapply Hna. reflexivity.
Qed.

Lemma normalizePartition_not_an_array_witness :
  (exists e, normalizePartition partition_with_bad_offsets = Throw e
             /\ KafkaJSError.name e = "TypeError")
  /\ normalizePartition partition_with_null_offsets
     = Return (delete "offsets" partition_with_null_offsets).
Proof.
  split.
  - apply (normalizePartition_not_an_array partition_with_bad_offsets
             (VString "30")); [reflexivity | discriminate].
  - apply (normalizePartition_not_an_array partition_with_null_offsets VNull);
      [reflexivity | discriminate].
Defined.

(** ** Reasoning about outcomes *)

Lemma post_ret {A} (a : A) (s : State) Q : Q (Return a) s -> post (ret a) s Q.
Proof. exact id. Qed.

Lemma post_throw {A} (e : KafkaJSError.t) (s : State)
    (Q : Outcome A -> State -> Prop) :
  Q (Throw e) s -> post (throw e) s Q.
Proof. exact id. Qed.

Lemma post_lift {A} (o : Outcome A) (s : State) Q : Q o s -> post (lift o) s Q.
Proof. exact id. Qed.

Lemma post_get (s : State) Q : Q (Return s) s -> post get s Q.
Proof. exact id. Qed.

Lemma post_get_broker (s : State) Q :
  Q (Return (broker s)) s -> post get_broker s Q.
Proof. exact id. Qed.

Lemma post_modify_broker (f : Broker -> Broker) (s : State) Q :
  Q (Return tt)
    {| broker := f (broker s); connection := connection s;
       clock := clock s; calls := calls s |} ->
  post (modify_broker f) s Q.
Proof. exact id. Qed.

Lemma post_lock_release (s : State) Q :
  Q (Return tt)
    {| broker := broker s; connection := connection s;
       clock := clock s; calls := calls s ++ [CallLockRelease] |} ->
  post lock_release s Q.
Proof. exact id. Qed.

Lemma post_external {A} (c : Call) (react : Reaction A) (s : State) Q :
  (forall r up now',
     react (calls s) (connection s) (clock s) = (r, up, now') ->
     Q r {| broker := broker s; connection := set_connected up (connection s);
            clock := now'; calls := calls s ++ [c] |}) ->
  post (external c react) s Q.
Proof.
  intros H. unfold post, external.
  destruct (react (calls s) (connection s) (clock s)) as [[r up] now'].
  apply H. reflexivity.
Qed.

Lemma post_bind {A B} (m : M A) (k : A -> M B) (s : State) Q :
  post m s (fun r s' => match r with
                        | Return a => post (k a) s' Q
                        | Throw e => Q (Throw e) s'
                        end) ->
  post (bind m k) s Q.
Proof.
  unfold post. rewrite bind_run. destruct (m s) as [[a|e] s']; exact id.
Qed.

Lemma post_try_catch {A} (m : M A) (h : KafkaJSError.t -> M A) (s : State) Q :
  post m s (fun r s' => match r with
                        | Return a => Q (Return a) s'
                        | Throw e => post (h e) s' Q
                        end) ->
  post (try_catch m h) s Q.
Proof.
  unfold post, try_catch. destruct (m s) as [[a|e] s']; exact id.
Qed.

Lemma post_try_finally {A} (m : M A) (f : M unit) (s : State) Q :
  post m s (fun r s' =>
              post f s' (fun r' s'' => match r' with
                                       | Return _ => Q r s''
                                       | Throw e => Q (Throw e) s''
                                       end)) ->
  post (try_finally m f) s Q.
Proof.
  unfold post, try_finally. destruct (m s) as [r s']. simpl.
  destruct (f s') as [[[]|e] s'']; exact id.
Qed.

Lemma post_conseq {A} (m : M A) (s : State) (P Q : Outcome A -> State -> Prop) :
  post m s P -> (forall r s', P r s' -> Q r s') -> post m s Q.
Proof. unfold post. auto. Qed.

(** ** What a request leaves untouched *)

Lemma at_most_unauthenticated_refl (b : Broker) : at_most_unauthenticated b b.
Proof. left. reflexivity. Qed.

Lemma at_most_unauthenticated_trans (b1 b2 b3 : Broker) :
  at_most_unauthenticated b1 b2 -> at_most_unauthenticated b2 b3 ->
  at_most_unauthenticated b1 b3.
Proof.
  intros [->| ->] [->| ->]; [left | right | right | right]; reflexivity.
Qed.

Lemma rpc_frame_refl (s : State) : rpc_frame s s.
Proof.
  split; [apply at_most_unauthenticated_refl|].
  split; [reflexivity|]. split; [reflexivity|].
  exists []. rewrite app_nil_r. split; [reflexivity | constructor].
Qed.

Lemma rpc_frame_trans (s1 s2 s3 : State) :
  rpc_frame s1 s2 -> rpc_frame s2 s3 -> rpc_frame s1 s3.
Proof.
  intros (Hb & Hs & Ht & l & Hl & Hf) (Hb' & Hs' & Ht' & l' & Hl' & Hf').
  split; [eapply at_most_unauthenticated_trans; eassumption|].
  split; [congruence|]. split; [congruence|].
  exists (l ++ l'). rewrite Hl', Hl, app_assoc.
  split; [reflexivity | apply Forall_app; auto].
Qed.

Lemma external_frame {A} (c : Call) (react : Reaction A) (s : State) :
  transport_call c -> rpc_frame s (external c react s).2.
Proof.
  intros Hc. unfold external.
  destruct (react (calls s) (connection s) (clock s)) as [[r up] now'].
  split; [apply at_most_unauthenticated_refl|].
  split; [reflexivity|]. split; [reflexivity|].
  exists [c]. split; [reflexivity | constructor; [assumption | constructor]].
Qed.

Lemma disconnect_frame (env : Env) (s : State) :
  rpc_frame s (disconnect env s).2.
Proof.
  rewrite disconnect_run.
  pose proof (external_frame CallDisconnect (connection_disconnect env)
                (cleared s) (or_introl eq_refl)) as (Hb & Hs & Ht & Hl).
  split; [|split; [assumption | split; assumption]].
  destruct Hb as [-> | ->]; right; reflexivity.
Qed.

Lemma sendRequest_frame (env : Env) (req : Request.t) (s : State) :
  rpc_frame s (sendRequest env req s).2.
Proof.
  rewrite sendRequest_run.
  pose proof (external_frame (CallSend req) (connection_send env req) s
                (or_intror (ex_intro _ req eq_refl))) as H1.
  destruct (external (CallSend req) (connection_send env req) s)
    as [[resp|e] s1]; simpl in *; [assumption|].
  destruct (String.eqb _ _); [|assumption].
  pose proof (disconnect_frame env s1) as H2.
  destruct (disconnect env s1) as [[[]|e'] s2]; simpl in *;
    eapply rpc_frame_trans; eassumption.
Qed.

Lemma probeVersions_frame (env : Env) (candidates : list Z) (s : State) :
  rpc_frame s (probeVersions env candidates s).2.
Proof.
  revert s. induction candidates as [|c rest IH]; intros s;
    [apply rpc_frame_refl|].
  rewrite probeVersions_run.
  pose proof (sendRequest_frame env
                (apiVersionsRequest env c (connectionTimeout (connection s))) s)
    as H1.
  destruct (sendRequest env _ s) as [[resp|e] s1]; simpl in *; [assumption|].
  destruct (bool_decide _); [|assumption].
  eapply rpc_frame_trans; [exact H1 | apply IH].
Qed.

Lemma apiVersions_frame (env : Env) (s : State) :
  rpc_frame s (apiVersions env s).2.
Proof.
  rewrite apiVersions_run.
  pose proof (probeVersions_frame env (availableVersions env) s) as H.
  destruct (probeVersions env (availableVersions env) s) as [[[r|]|e] s'];
    exact H.
Qed.

Lemma lift_bind_frame {A} (o : Outcome Z) (k : Z -> M A) (s : State) :
  (forall v s0, rpc_frame s0 (k v s0).2) ->
  rpc_frame s (bind (lift o) k s).2.
Proof.
  intros Hk. rewrite bind_run. unfold lift.
  destruct o as [v|e]; [apply Hk | apply rpc_frame_refl].
Qed.

Lemma joinGroup_frame (env : Env) (a : JoinGroupArgs) (s : State) :
  rpc_frame s (joinGroup env a s).2.
Proof.
  unfold joinGroup. rewrite bind_run. simpl.
  apply lift_bind_frame. intros v s0. unfold try_catch.
  pose proof (sendRequest_frame env
                (joinGroupRequest env v a (default (default "" (arg_memberId a)) None))
                s0) as H1.
  destruct (sendRequest env _ s0) as [[resp|e] s1]; simpl in *; [assumption|].
  destruct (String.eqb _ _); [|assumption].
  eapply rpc_frame_trans; [exact H1 | apply sendRequest_frame].
Qed.

Lemma fetch_frame (env : Env) (a : FetchArgs) (s : State) :
  rpc_frame s (fetch env a s).2.
Proof.
  unfold fetch. rewrite bind_run. simpl.
  apply lift_bind_frame. intros v s0. apply sendRequest_frame.
Qed.

Lemma listOffsets_frame (env : Env) (a : ListOffsets.Params) (s : State) :
  rpc_frame s (listOffsets env a s).2.
Proof.
  unfold listOffsets. rewrite bind_run. simpl.
  apply lift_bind_frame. intros v s0. rewrite bind_run.
  pose proof (sendRequest_frame env (listOffsetsRequest env v a) s0) as H1.
  destruct (sendRequest env _ s0) as [[resp|e] s1]; simpl in *; [|assumption].
  rewrite bind_run. unfold lift. destruct (mapOutcome _ _); assumption.
Qed.

(** X4. No request changes a field of the broker, except that
    [authenticatedAt] may be cleared; none touches the lock, connects or
    authenticates. This holds for the send path, the version negotiation,
    [joinGroup], [fetch] and [listOffsets], whatever the outcome. *)
Theorem requests_frame (env : Env) (s : State) :
  (forall req, rpc_frame s (sendRequest env req s).2)
  /\ rpc_frame s (apiVersions env s).2
  /\ (forall a, rpc_frame s (joinGroup env a s).2)
  /\ (forall a, rpc_frame s (fetch env a s).2)
  /\ (forall a, rpc_frame s (listOffsets env a s).2).
Proof.
  split; [intros; apply sendRequest_frame|].
  split; [apply apiVersions_frame|].
  split; [intros; apply joinGroup_frame|].
  split; intros; [apply fetch_frame | apply listOffsets_frame].
Qed.

(** ** More on [connect] *)

Lemma apiVersions_post (env : Env) (s : State) :
  post (apiVersions env) s (fun _ s' => rpc_frame s s').
Proof. apply apiVersions_frame. Qed.

Ltac reduce_state :=
  cbn beta iota;
  cbn [broker connection clock calls
       nodeId versions authenticationTimeout reauthenticationThreshold
       allowAutoTopicCreation supportAuthenticationProtocol authenticatedAt
       sessionLifetime lookupRequest
       connected sasl connectionTimeout host port
       set_authenticatedAt set_versions set_lookupRequest
       set_supportAuthenticationProtocol set_sessionLifetime set_connected].

Ltac post_step :=
  lazymatch goal with
  | |- post (bind _ _) _ _ => apply post_bind
  | |- post (ret _) _ _ => apply post_ret
  | |- post (throw _) _ _ => apply post_throw
  | |- post get _ _ => apply post_get
  | |- post get_broker _ _ => apply post_get_broker
  | |- post (modify_broker _) _ _ => apply post_modify_broker
  | |- post lock_release _ _ => apply post_lock_release
  | |- post (try_finally _ _) _ _ => apply post_try_finally
  | |- post (external _ _) _ _ =>
      apply post_external; intros [?|?] ? ? ?
  | |- post (if ?b then _ else _) _ _ => destruct b eqn:?
  | |- post (match ?x with _ => _ end) _ _ => destruct x eqn:?
  end; reduce_state.

Ltac post_steps := repeat post_step.

Lemma transport_call_not_lock (l : list Call) :
  Forall transport_call l -> Forall (fun c => ~ lock_call c) l.
Proof.
  intros H. eapply Forall_impl; [exact H|].
  intros c [->|[r ->]] [H'|H']; discriminate.
Qed.

Lemma between_lock_calls (cs X : list Call) (P : Call -> Prop) :
  (exists mid, X = (cs ++ [CallLockAcquire]) ++ mid /\ Forall P mid) ->
  exists mid,
    X ++ [CallLockRelease] = cs ++ [CallLockAcquire] ++ mid ++ [CallLockRelease]
    /\ Forall P mid.
Proof.
  intros (mid & -> & H). exists mid. split; [|assumption].
  rewrite <- !app_assoc. reflexivity.
Qed.

Ltac solve_mid :=
  eexists; split;
  [ rewrite <- ?app_assoc; reflexivity
  | repeat first [ apply Forall_nil_2
                 | apply transport_call_not_lock; assumption
                 | apply Forall_app_2
                 | apply Forall_cons_2 ];
    try (intros [?|?]; discriminate) ].

(** X6. [connect()] takes the lock first and gives it back last, once,
    whatever happens in between: also when taking the lock fails, when the
    transport does not connect, when the negotiation or the authentication
    throws, and when the broker turns out to be connected already. *)
Theorem connect_releases_lock (env : Env) (s : State) :
  exists mid,
    calls (connect env s).2
    = calls s ++ [CallLockAcquire] ++ mid ++ [CallLockRelease]
    /\ Forall (fun c => ~ lock_call c) mid.
Proof.
  change (post (connect env) s
            (fun _ s' =>
               exists mid,
                 calls s' = calls s ++ [CallLockAcquire] ++ mid ++ [CallLockRelease]
                 /\ Forall (fun c => ~ lock_call c) mid)).
  unfold connect. post_steps.
  all: try (eapply post_conseq; [apply apiVersions_post|];
            intros r s' (_ & _ & _ & l & Hl & Hf); cbn [calls] in Hl;
            destruct r; reduce_state; post_steps).
  all: apply between_lock_calls; try rewrite Hl.
  all: solve_mid.
Qed.

(** X7. A [connect()] that finds the broker connected once it holds the
    lock does nothing else: it returns, the broker's fields are as before,
    and the only calls made are the two on the lock. *)
Theorem connect_when_connected (env : Env) (s s1 : State) :
  external CallLockAcquire (lock_acquire env) s = (Return tt, s1) ->
  isConnected (clock s1) (connection s1) (broker s1) = true ->
  connect env s
  = (Return tt,
     {| broker := broker s; connection := connection s1; clock := clock s1;
        calls := calls s ++ [CallLockAcquire; CallLockRelease] |}).
Proof.
  intros Hl Hc. unfold connect, try_finally. rewrite bind_run, Hl.
  rewrite bind_run. simpl. rewrite Hc. simpl.
  unfold external in Hl.
  destruct (lock_acquire env (calls s) (connection s) (clock s))
    as [[r up] now'].
  injection Hl as _ <-. simpl. rewrite <- app_assoc. reflexivity.
Qed.

Lemma connect_when_connected_witness :
  connect env_quiet (fresh_state true false)
  = (Return tt,
     {| broker := new_Broker no_options;
        connection := scenario_connection true false; clock := epoch;
        calls := [CallLockAcquire; CallLockRelease] |}).
Proof.
  exact (connect_when_connected env_quiet (fresh_state true false)
           (external CallLockAcquire (lock_acquire env_quiet)
              (fresh_state true false)).2 eq_refl eq_refl).
Defined.

Lemma at_most_unauthenticated_cleared (b b' : Broker) :
  at_most_unauthenticated (set_authenticatedAt None b) b' ->
  b' = set_authenticatedAt None b.
Proof. intros [->| ->]; reflexivity. Qed.

(** The negotiation inside [connect]: the broker stays as it was entered,
    with [authenticatedAt] cleared. *)
Lemma apiVersions_post_cleared (env : Env) (s : State) (b : Broker) :
  broker s = set_authenticatedAt None b ->
  post (apiVersions env) s
    (fun _ s' =>
       broker s' = set_authenticatedAt None b
       /\ sasl (connection s') = sasl (connection s)
       /\ exists l, calls s' = calls s ++ l /\ Forall transport_call l).
Proof.
  intros Hb. eapply post_conseq; [apply apiVersions_post|].
  intros r s' (Hf & Hs & _ & Hl). rewrite Hb in Hf.
  apply at_most_unauthenticated_cleared in Hf. auto.
Qed.

Ltac post_apiVersions :=
  eapply post_conseq; [apply apiVersions_post_cleared; reflexivity|];
  let r := fresh "r" in
  let b' := fresh "b'" in
  let c' := fresh "c'" in
  let t' := fresh "t'" in
  let cs' := fresh "cs'" in
  let Hb := fresh "Hb" in
  let Hs := fresh "Hs" in
  let l := fresh "l" in
  let Hl := fresh "Hl" in
  let Hf := fresh "Hf" in
  intros r [b' c' t' cs'] (Hb & Hs & l & Hl & Hf);
  cbn [broker calls connection sasl set_connected] in Hb, Hl, Hs;
  subst b' cs';
  destruct r; reduce_state.

(** X5. The invariant of the broker's fields -- an authenticated broker
    has its versions and knows whether the server supports
    SaslAuthenticate -- is kept by [connect()], whatever its outcome, by
    [disconnect()] and by every request. *)
Theorem authenticated_implies_negotiated_kept (env : Env) (s : State) :
  authenticated_implies_negotiated (broker s) ->
  authenticated_implies_negotiated (broker (connect env s).2)
  /\ authenticated_implies_negotiated (broker (disconnect env s).2)
  /\ (forall req,
        authenticated_implies_negotiated (broker (sendRequest env req s).2)).
Proof.
  intros Hinv. split; [|split].
  - change (post (connect env) s
              (fun _ s' => authenticated_implies_negotiated (broker s'))).
    unfold connect. post_steps; try post_apiVersions; post_steps;
      try assumption;
      try (intros Hat; exfalso; apply Hat; reflexivity);
      try (intros _; reduce_state; split; congruence).
  - unfold authenticated_implies_negotiated.
    rewrite disconnect_authenticatedAt. intros Hat. exfalso. apply Hat.
    reflexivity.
  - intros req.
    destruct (sendRequest_frame env req s) as ([-> | ->] & _);
      [assumption|].
    intros Hat. exfalso. apply Hat. reflexivity.
Qed.

Lemma authenticated_implies_negotiated_kept_witness :
  authenticated_implies_negotiated
    (broker (connect env_s3 (fresh_state false true)).2)
  /\ authenticatedAt (broker (connect env_s3 (fresh_state false true)).2)
     = Some epoch.
Proof.
  split; [|reflexivity].
  apply (authenticated_implies_negotiated_kept env_s3 (fresh_state false true)).
  intros H. exfalso. apply H. reflexivity.
Defined.

Lemma isConnected_unauthenticated (now : HrTime) (c : Connection) (b : Broker) :
  sasl c = true -> authenticatedAt b = None -> isConnected now c b = false.
Proof.
  intros Hs Ha. unfold isConnected. rewrite Hs, Ha. apply andb_false_r.
Qed.

(** X3. With SASL configured, the broker does not count as connected
    after [disconnect()], nor after a send that failed with a
    connection-closed error, at any reading of the clock and whatever the
    transport says: the next request has to go through [connect()]. *)
Theorem not_connected_after_close (env : Env) (s : State) (now : HrTime) :
  sasl (connection s) = true ->
  isConnected now (connection (disconnect env s).2)
    (broker (disconnect env s).2) = false
  /\ (forall req e,
        (external (CallSend req) (connection_send env req) s).1 = Throw e ->
        KafkaJSError.name e = "KafkaJSConnectionClosedError" ->
        isConnected now (connection (sendRequest env req s).2)
          (broker (sendRequest env req s).2) = false).
Proof.
  intros Hs. split.
  - apply isConnected_unauthenticated.
    + destruct (disconnect_frame env s) as (_ & -> & _). assumption.
    + apply disconnect_authenticatedAt.
  - intros req e He Hn. apply isConnected_unauthenticated.
    + destruct (sendRequest_frame env req s) as (_ & -> & _). assumption.
    + rewrite sendRequest_run.
      destruct (external (CallSend req) (connection_send env req) s)
        as [[resp|e0] s1]; simpl in He; [discriminate|].
      injection He as ->. apply String.eqb_eq in Hn. rewrite Hn.
      pose proof (disconnect_authenticatedAt env s1) as Hd.
      destruct (disconnect env s1) as [[[]|e'] s2]; exact Hd.
Qed.

Lemma not_connected_after_close_witness :
  isConnected (after_seconds 5)
    (connection (sendRequest env_closed metadata_like_request
                   authenticated_state).2)
    (broker (sendRequest env_closed metadata_like_request
               authenticated_state).2) = false
  /\ isConnected (after_seconds 5) (connection authenticated_state)
       (broker authenticated_state) = true.
Proof.
  split; [|reflexivity].
  apply (proj2 (not_connected_after_close env_closed authenticated_state
                  (after_seconds 5) eq_refl)
           metadata_like_request ConnectionClosedError);
    reflexivity.
Defined.

Ltac use_lock_outcome Hacq :=
  match goal with
  | H : lock_acquire _ _ _ _ = _ |- _ =>
      rewrite Hacq in H; injection H as <- <- <-
  end.

(** X8. A [connect()] whose lock was granted, that did not find the broker
    connected and that returns successfully has resolved
    [supportAuthenticationProtocol]. With SASL configured the authenticator
    ran last, on the negotiated versions and the resolved support flag;
    [authenticatedAt] is the clock reading at its return and
    [sessionLifetime] the lifetime it reported, as a [Long]. Without SASL
    the broker is left unauthenticated and [sessionLifetime] untouched. *)
Theorem connect_authenticates (env : Env) (s s1 : State) :
  external CallLockAcquire (lock_acquire env) s = (Return tt, s1) ->
  isConnected (clock s1) (connection s1) (broker s1) = false ->
  (connect env s).1 = Return tt ->
  supportAuthenticationProtocol (broker (connect env s).2) <> None
  /\ if sasl (connection s)
     then authenticatedAt (broker (connect env s).2)
          = Some (clock (connect env s).2)
          /\ exists vs pre c0 t0 up lifetime,
               versions (broker (connect env s).2) = Some vs
               /\ calls (connect env s).2
                  = pre ++ [CallAuthenticate vs
                              (supportAuthenticationProtocol
                                 (broker (connect env s).2));
                            CallLockRelease]
               /\ authenticate env vs
                    (supportAuthenticationProtocol (broker (connect env s).2))
                    pre c0 t0
                  = (Return lifetime, up, clock (connect env s).2)
               /\ sessionLifetime (broker (connect env s).2)
                  = Long.fromValue lifetime
     else authenticatedAt (broker (connect env s).2) = None
          /\ sessionLifetime (broker (connect env s).2)
             = sessionLifetime (broker s).
Proof.
  intros Hl Hc. unfold external in Hl.
  destruct (lock_acquire env (calls s) (connection s) (clock s))
    as [[r0 up0] t0] eqn:Hacq.
  injection Hl as -> <-. cbn [clock connection broker] in Hc.
  change (post (connect env) s
            (fun r s' =>
               r = Return tt ->
               supportAuthenticationProtocol (broker s') <> None
               /\ if sasl (connection s)
                  then authenticatedAt (broker s') = Some (clock s')
                       /\ exists vs pre c0 t0 up lifetime,
                            versions (broker s') = Some vs
                            /\ calls s'
                               = pre ++ [CallAuthenticate vs
                                           (supportAuthenticationProtocol
                                              (broker s'));
                                         CallLockRelease]
                            /\ authenticate env vs
                                 (supportAuthenticationProtocol (broker s'))
                                 pre c0 t0
                               = (Return lifetime, up, clock s')
                            /\ sessionLifetime (broker s')
                               = Long.fromValue lifetime
                  else authenticatedAt (broker s') = None
                       /\ sessionLifetime (broker s')
                          = sessionLifetime (broker s))).
  unfold connect. post_steps; try post_apiVersions; post_steps;
    try (intros; discriminate); try use_lock_outcome Hacq;
    try congruence; intros _.
  all: try match goal with
           | Hs : _ = sasl (connection _) |- _ => rewrite <- Hs
           end;
       try match goal with
           | H : sasl _ = true |- _ => rewrite H
           | H : sasl _ = false |- _ => rewrite H
           end.
  all: (split; [congruence|]).
  all: first
         [ split; reflexivity
         | split; [reflexivity|];
           do 6 eexists;
           split; [first [eassumption | reflexivity]|];
           split; [exact (eq_sym (List.app_assoc _ [_] [_]))|];
           split; [|reflexivity];
           match goal with
           | H : authenticate _ _ _ _ _ _ = _ |- _ => exact H
           end ].
Qed.

Lemma connect_authenticates_witness :
  authenticatedAt (broker (connect env_s3 (fresh_state false true)).2)
  = Some (clock (connect env_s3 (fresh_state false true)).2)
  /\ sessionLifetime (broker (connect env_s3 (fresh_state false true)).2)
     = 60000.
Proof.
  destruct (connect_authenticates env_s3 (fresh_state false true)
              (external CallLockAcquire (lock_acquire env_s3)
                 (fresh_state false true)).2 eq_refl eq_refl eq_refl)
    as (_ & Hat & _).
  split; [exact Hat | reflexivity].
Defined.

Lemma sent_app (l1 l2 : list Call) : sent (l1 ++ l2) = sent l1 ++ sent l2.
Proof. apply omap_app. Qed.

(** X9. What the broker already knows is not asked again: a broker that
    has its versions -- handed to the constructor or negotiated by an
    earlier [connect()] -- keeps them through [connect()] and sends no
    request while connecting, and a resolved
    [supportAuthenticationProtocol] is kept as it is, whatever the outcome
    of the [connect()]. *)
Theorem connect_keeps_known (env : Env) (s : State) :
  (forall vs,
     versions (broker s) = Some vs ->
     versions (broker (connect env s).2) = Some vs
     /\ sent (calls (connect env s).2) = sent (calls s))
  /\ (forall v,
        supportAuthenticationProtocol (broker s) = Some v ->
        supportAuthenticationProtocol (broker (connect env s).2) = Some v).
Proof.
  change (post (connect env) s
            (fun _ s' =>
               (forall vs,
                  versions (broker s) = Some vs ->
                  versions (broker s') = Some vs
                  /\ sent (calls s') = sent (calls s))
               /\ (forall v,
                     supportAuthenticationProtocol (broker s) = Some v ->
                     supportAuthenticationProtocol (broker s') = Some v))).
  unfold connect. post_steps; try post_apiVersions; post_steps.
  all: split; [intros vs0 Hvs0; first [congruence | split; [congruence|]]
              | intros v0 Hv0; congruence].
  all: rewrite !sent_app; cbn [sent omap]; rewrite !app_nil_r; reflexivity.
Qed.

Lemma connect_keeps_known_witness :
  versions (broker (connect env_timeout (known_versions_state false)).2)
  = Some negotiated_versions
  /\ sent (calls (connect env_timeout (known_versions_state false)).2) = [].
Proof.
  apply (proj1 (connect_keeps_known env_timeout (known_versions_state false))).
  reflexivity.
Defined.

(** X10. A [connect()] that got the lock, did not find the broker connected
    and then failed -- in the transport, in the negotiation or in the
    authentication -- leaves [authenticatedAt] NIL; with SASL configured
    the broker does not count as connected afterwards. *)
Theorem connect_failure_unauthenticated (env : Env) (s s1 : State)
    (e : KafkaJSError.t) :
  external CallLockAcquire (lock_acquire env) s = (Return tt, s1) ->
  isConnected (clock s1) (connection s1) (broker s1) = false ->
  (connect env s).1 = Throw e ->
  authenticatedAt (broker (connect env s).2) = None
  /\ (sasl (connection s) = true ->
      forall now,
        isConnected now (connection (connect env s).2)
          (broker (connect env s).2) = false).
Proof.
  intros Hl Hc Hr.
  assert (Hat : authenticatedAt (broker (connect env s).2) = None).
  { revert Hr. unfold external in Hl.
    destruct (lock_acquire env (calls s) (connection s) (clock s))
      as [[r0 up0] t0] eqn:Hacq.
    injection Hl as -> <-. cbn [clock connection broker] in Hc.
    change (post (connect env) s
              (fun r s' => r = Throw e -> authenticatedAt (broker s') = None)).
    unfold connect. post_steps; try post_apiVersions; post_steps;
      try (intros; discriminate); try use_lock_outcome Hacq;
      try congruence; intros _; reflexivity. }
  split; [exact Hat|].
  intros Hs now. apply isConnected_unauthenticated; [|exact Hat].
  change (post (connect env) s (fun _ s' => sasl (connection s') = true)).
  unfold connect. post_steps; try post_apiVersions; post_steps;
    try assumption; congruence.
Qed.

Lemma connect_failure_unauthenticated_witness :
  authenticatedAt (broker (connect env_timeout (fresh_state false true)).2)
  = None
  /\ isConnected (after_seconds 1)
       (connection (connect env_timeout (fresh_state false true)).2)
       (broker (connect env_timeout (fresh_state false true)).2) = false.
Proof.
  destruct (connect_failure_unauthenticated env_timeout (fresh_state false true)
              (external CallLockAcquire (lock_acquire env_timeout)
                 (fresh_state false true)).2
              RequestTimeoutError eq_refl eq_refl eq_refl)
    as [H1 H2].
  split; [exact H1 | apply H2; reflexivity].
Defined.

(** ** More on the version negotiation *)

(** X12. What [apiVersions()] hands to the connection is a prefix of the
    candidate list, in the order of the list, one request per candidate,
    each at the candidate's own version and with [requestTimeout] set to
    the connection's [connectionTimeout]. *)
Theorem apiVersions_sent (env : Env) (s : State) :
  exists n : nat,
    sent (calls (apiVersions env s).2)
    = sent (calls s)
      ++ map (fun c => apiVersionsRequest env c (connectionTimeout (connection s)))
             (take n (availableVersions env)).
Proof.
  destruct (probeVersions_sent env (availableVersions env) s) as [n Hn].
  exists n. rewrite <- Hn. rewrite apiVersions_run.
  destruct (probeVersions env (availableVersions env) s) as [[[r|]|e] s'];
    reflexivity.
Qed.

(** X13. When the server rejects every version with [UNSUPPORTED_VERSION],
    every candidate is probed, once and in order, before [apiVersions()]
    gives up with the non-retriable error. *)
Theorem apiVersions_all_rejected (env : Env) (s : State) :
  (forall req cs c now, exists e up now',
      connection_send env req cs c now = (Throw e, up, now')
      /\ KafkaJSError.type e = Some "UNSUPPORTED_VERSION"
      /\ KafkaJSError.name e <> "KafkaJSConnectionClosedError") ->
  (apiVersions env s).1
  = Throw (KafkaJSNonRetriableError "API Versions not supported")
  /\ sent (calls (apiVersions env s).2)
     = sent (calls s)
       ++ map (fun c => apiVersionsRequest env c (connectionTimeout (connection s)))
              (availableVersions env).
Proof.
  intros Hall. rewrite apiVersions_run.
  assert (H : forall candidates s0,
             (probeVersions env candidates s0).1 = Return None
             /\ sent (calls (probeVersions env candidates s0).2)
                = sent (calls s0)
                  ++ map (fun c => apiVersionsRequest env c
                                     (connectionTimeout (connection s0)))
                         candidates).
  { induction candidates as [|c rest IH]; intros s0.
    - split; [reflexivity|]. simpl. rewrite app_nil_r. reflexivity.
    - rewrite probeVersions_run.
      pose proof (sendRequest_sent env
                    (apiVersionsRequest env c (connectionTimeout (connection s0)))
                    s0) as Hs.
      pose proof (sendRequest_connectionTimeout env
                    (apiVersionsRequest env c (connectionTimeout (connection s0)))
                    s0) as Ht.
      revert Hs Ht. rewrite sendRequest_run. unfold external.
      destruct (Hall (apiVersionsRequest env c (connectionTimeout (connection s0)))
                  (calls s0) (connection s0) (clock s0))
        as (e & up & now' & -> & He & Hn).
      apply String.eqb_neq in Hn. rewrite Hn. cbn [fst snd].
      intros Hs Ht. rewrite bool_decide_eq_true_2 by assumption.
      destruct (IH {| broker := broker s0;
                      connection := set_connected up (connection s0);
                      clock := now';
                      calls := calls s0
                               ++ [CallSend
                                     (apiVersionsRequest env c
                                        (connectionTimeout (connection s0)))] |})
        as [IH1 IH2].
      split; [exact IH1|]. rewrite IH2, Hs. cbn [connection connectionTimeout
        set_connected]. rewrite <- app_assoc. reflexivity. }
  destruct (H (availableVersions env) s) as [H1 H2].
  destruct (probeVersions env (availableVersions env) s) as [[[r|]|e] s'];
    simpl in H1; try discriminate. split; [reflexivity | exact H2].
Qed.

Lemma apiVersions_all_rejected_witness :
  (apiVersions env_none (fresh_state true false)).1
  = Throw (KafkaJSNonRetriableError "API Versions not supported")
  /\ sent (calls (apiVersions env_none (fresh_state true false)).2)
     = [apiVersionsRequest env_none 2 1000; apiVersionsRequest env_none 1 1000;
        apiVersionsRequest env_none 0 1000].
Proof.
  apply (apiVersions_all_rejected env_none (fresh_state true false)).
  intros req cs c now.
  exists UnsupportedVersionProtocolError, (connected c), now.
  split; [reflexivity|]. split; [reflexivity | discriminate].
Defined.

(** ** Requests on a broker that never connected *)

(** X22. While [lookupRequest] is the sentinel, [joinGroup], [fetch] and
    [listOffsets] throw [Error('Broker not connected')] before anything
    else happens: no call reaches the connection and the state is as it
    was. *)
Theorem requests_before_connect (env : Env) (s : State) :
  lookupRequest (broker s) = notInitializedLookup ->
  (forall a, joinGroup env a s = (Throw (JsError "Broker not connected"), s))
  /\ (forall a, fetch env a s = (Throw (JsError "Broker not connected"), s))
  /\ (forall a, listOffsets env a s
                = (Throw (JsError "Broker not connected"), s)).
Proof.
  intros Hl. unfold joinGroup, fetch, listOffsets.
  repeat split; intros a; rewrite bind_run; simpl; rewrite bind_run;
    unfold lift; rewrite Hl; reflexivity.
Qed.

Lemma requests_before_connect_witness :
  fetch env_quiet fetch_two (fresh_state true false)
  = (Throw (JsError "Broker not connected"), fresh_state true false).
Proof.
  apply (proj1 (proj2 (requests_before_connect env_quiet
                         (fresh_state true false) eq_refl))).
Defined.

(** X23. A [KafkaJSMemberIdRequired] error that carries no member id makes
    [joinGroup] send the first request a second time, unchanged: the
    default of [makeRequest] puts the caller's member id back. *)
Theorem joinGroup_retry_without_memberId (env : Env) (a : JoinGroupArgs)
    (s : State) (version : Z) (e : KafkaJSError.t) :
  call_lookupRequest (lookupRequest (broker s))
    (apiKeys_JoinGroup env) (requests_JoinGroup env) = Return version ->
  (sendRequest env
     (joinGroupRequest env version a (default "" (arg_memberId a))) s).1
  = Throw e ->
  KafkaJSError.name e = "KafkaJSMemberIdRequired" ->
  KafkaJSError.memberId e = None ->
  sent (calls (joinGroup env a s).2)
  = sent (calls s)
    ++ [joinGroupRequest env version a (default "" (arg_memberId a));
        joinGroupRequest env version a (default "" (arg_memberId a))].
Proof.
  intros Hv He Hn Hm. rewrite (joinGroup_run env a s version Hv).
  pose proof (sendRequest_sent env
                (joinGroupRequest env version a (default "" (arg_memberId a))) s)
    as Hs.
  destruct (sendRequest env _ s) as [[resp|e0] s1]; simpl in *;
    [discriminate|].
  injection He as ->. apply String.eqb_eq in Hn. rewrite Hn, Hm. simpl.
  rewrite sendRequest_sent, Hs, <- app_assoc. reflexivity.
Qed.

Lemma joinGroup_retry_without_memberId_witness :
  sent (calls (joinGroup env_member_id_missing join_g connected_state).2)
  = [joinGroupRequest env_member_id_missing 4 join_g "";
     joinGroupRequest env_member_id_missing 4 join_g ""].
Proof.
  apply (joinGroup_retry_without_memberId env_member_id_missing join_g
           connected_state 4 MemberIdRequired_bare);
    reflexivity.
Defined.

(** X14. Against a server that rejects the candidates before [c] with
    [UNSUPPORTED_VERSION] and answers [c], the negotiation ends on [c]: the
    candidates up to [c] are probed and no other, and the result is the
    table of the answer. *)
Theorem apiVersions_first_accepted (env : Env) (s : State)
    (before after : list Z) (c : Z) (response : Response.t) :
  availableVersions env = before ++ c :: after ->
  (forall c' cs conn now,
     c' ∈ before ->
     exists e up now',
       connection_send env
         (apiVersionsRequest env c' (connectionTimeout (connection s)))
         cs conn now
       = (Throw e, up, now')
       /\ KafkaJSError.type e = Some "UNSUPPORTED_VERSION"
       /\ KafkaJSError.name e <> "KafkaJSConnectionClosedError") ->
  (forall cs conn now,
     exists up now',
       connection_send env
         (apiVersionsRequest env c (connectionTimeout (connection s)))
         cs conn now
       = (Return response, up, now')) ->
  (apiVersions env s).1
  = Return (reduceVersions (Response.apiVersions response))
  /\ sent (calls (apiVersions env s).2)
     = sent (calls s)
       ++ map (fun c => apiVersionsRequest env c (connectionTimeout (connection s)))
              (before ++ [c]).
Proof.
  intros Hav Hrej Hacc. rewrite apiVersions_run, Hav. clear Hav.
  assert (H : forall s0,
             connectionTimeout (connection s0) = connectionTimeout (connection s) ->
             (probeVersions env (before ++ c :: after) s0).1
             = Return (Some response)
             /\ sent (calls (probeVersions env (before ++ c :: after) s0).2)
                = sent (calls s0)
                  ++ map (fun c => apiVersionsRequest env c
                                     (connectionTimeout (connection s)))
                         (before ++ [c])).
  { induction before as [|c' before IH]; intros s0 Ht.
    - cbn [app]. rewrite probeVersions_run, Ht.
      pose proof (sendRequest_sent env
                    (apiVersionsRequest env c (connectionTimeout (connection s)))
                    s0) as Hs.
      revert Hs. rewrite sendRequest_run. unfold external.
      destruct (Hacc (calls s0) (connection s0) (clock s0))
        as (up & now' & ->).
      cbn [fst snd]. intros Hs. split; [reflexivity | exact Hs].
    - cbn [app]. rewrite probeVersions_run, Ht.
      pose proof (sendRequest_sent env
                    (apiVersionsRequest env c' (connectionTimeout (connection s)))
                    s0) as Hs.
      revert Hs. rewrite sendRequest_run. unfold external.
      destruct (Hrej c' (calls s0) (connection s0) (clock s0))
        as (e & up & now' & -> & He & Hn); [left|].
      apply String.eqb_neq in Hn. rewrite Hn. cbn [fst snd].
      intros Hs. rewrite bool_decide_eq_true_2 by assumption.
      destruct (IH (fun c'' cs conn now Hin =>
                      Hrej c'' cs conn now (list_elem_of_further _ _ _ Hin))
                  {| broker := broker s0;
                     connection := set_connected up (connection s0);
                     clock := now';
                     calls := calls s0
                              ++ [CallSend
                                    (apiVersionsRequest env c'
                                       (connectionTimeout (connection s)))] |}
                  Ht)
        as [IH1 IH2].
      split; [exact IH1|]. rewrite IH2, Hs.
      cbn [map]. rewrite <- app_assoc. reflexivity. }
  destruct (H s eq_refl) as [H1 H2].
  destruct (probeVersions env (before ++ c :: after) s) as [[[r|]|e] s'];
    simpl in H1; try discriminate.
  injection H1 as ->. split; [reflexivity | exact H2].
Qed.

(** Scenario S3 as an instance: candidates 3, 2, 1, 0 and a server that
    accepts up to version 2. *)
Lemma apiVersions_first_accepted_witness :
  (apiVersions env_s3 (fresh_state true false)).1
  = Return (reduceVersions (Response.apiVersions versions_response))
  /\ sent (calls (apiVersions env_s3 (fresh_state true false)).2)
     = [apiVersionsRequest env_s3 3 1000; apiVersionsRequest env_s3 2 1000].
Proof.
  apply (apiVersions_first_accepted env_s3 (fresh_state true false)
           [3] [1; 0] 2 versions_response).
  - reflexivity.
  - intros c' cs conn now Hin. apply list_elem_of_singleton in Hin as ->.
    exists UnsupportedVersionProtocolError, (connected conn), now.
    split; [reflexivity|]. split; [reflexivity | discriminate].
  - intros cs conn now. exists (connected conn), now. reflexivity.
Defined.

(** ** More on [listOffsets] and on short sessions *)

Lemma listOffsets_returns_witness :
  exists result,
    listOffsets env_offsets offsets_of_t connected_state
    = (Return result,
       (sendRequest env_offsets (listOffsetsRequest env_offsets 2 offsets_of_t)
          connected_state).2).
Proof.
  apply (listOffsets_returns env_offsets offsets_of_t connected_state
           (sendRequest env_offsets
              (listOffsetsRequest env_offsets 2 offsets_of_t)
              connected_state).2 2 offsets_response);
    [reflexivity | reflexivity |].
  apply Forall_cons_2; [|apply Forall_nil_2].
  apply Forall_cons_2; [right; eexists; reflexivity|].
  apply Forall_cons_2; [left; reflexivity | apply Forall_nil_2].
Defined.

(** X2. A session that is not longer than the re-authentication threshold
    is never usable: from the moment of authentication on the predicate
    asks for re-authentication, so with SASL [isConnected()] is false at
    every later reading of the clock -- as long as the sum of elapsed time
    and threshold fits 64 bits. *)
Theorem isConnected_short_session (now at_ : HrTime) (c : Connection)
    (b : Broker) :
  sasl c = true -> authenticatedAt b = Some at_ ->
  wf_hrtime now -> wf_hrtime at_ ->
  total_nanos at_ <= total_nanos now ->
  sessionLifetime b <> 0 ->
  sessionLifetime b <= reauthenticationThreshold b ->
  Long.inRange (elapsedMillis now at_ + reauthenticationThreshold b) ->
  shouldReauthenticate now b = true /\ isConnected now c b = false.
Proof.
  intros Hs Hat Hn Ha Hle H0 Hshort Hr.
  assert (Hre : shouldReauthenticate now b = true).
  { rewrite (shouldReauthenticate_elapsed now at_ b) by assumption.
    rewrite wrap_inRange by assumption. apply Z.leb_le.
    assert (0 <= elapsedMillis now at_).
    { unfold elapsedMillis. apply Z.div_pos; lia. }
    lia. }
  split; [exact Hre|].
  unfold isConnected. rewrite Hs, Hat, Hre. apply andb_false_r.
Qed.

Lemma isConnected_short_session_witness :
  shouldReauthenticate epoch short_session_broker = true
  /\ isConnected epoch (scenario_connection true true) short_session_broker
     = false.
Proof.
  apply (isConnected_short_session epoch epoch (scenario_connection true true)
           short_session_broker);
    first [reflexivity | vm_compute; intuition discriminate].
Defined.

(** ** The Fetch v9 request *)

(** Two maps agree on two lists as soon as a second pair of maps, which
    identifies the same elements, does. *)
Lemma map_eq_transfer {A B C} (f : A -> B) (g : A -> C) :
  (forall x y, f x = f y <-> g x = g y) ->
  forall l1 l2, map f l1 = map f l2 <-> map g l1 = map g l2.
Proof.
  intros Hfg. induction l1 as [|x l1 IH]; intros [|y l2]; simpl;
    split; intros H; try discriminate; try reflexivity;
    injection H as Hx Hl; f_equal;
    first [apply Hfg; assumption | apply IH; assumption].
Qed.

Lemma map_encoders_eq_transfer {A C} (f : A -> list FetchV9.Write) (g : A -> C) :
  (forall x y, f x = f y <-> g x = g y) ->
  forall l1 l2,
    map (fun x => inl (f x) : list FetchV9.Write + Z) l1
    = map (fun x => inl (f x)) l2
    <-> map g l1 = map g l2.
Proof.
  intros Hfg. apply map_eq_transfer. intros x y. rewrite <- Hfg.
  split; [intros [= H]; exact H | intros ->; reflexivity].
Qed.

Lemma encodePartition_eq (p1 p2 : FetchV9.Partition.t) :
  FetchV9.encodePartition p1 = FetchV9.encodePartition p2
  <-> FetchV9.Partition.resolve p1 = FetchV9.Partition.resolve p2.
Proof.
  unfold FetchV9.encodePartition, FetchV9.Partition.resolve.
  split; intros H; congruence.
Qed.

Lemma encodeTopic_eq (x1 x2 : FetchV9.Topic.t) :
  FetchV9.encodeTopic x1 = FetchV9.encodeTopic x2
  <-> FetchV9.Topic.resolve x1 = FetchV9.Topic.resolve x2.
Proof.
  unfold FetchV9.encodeTopic, FetchV9.Topic.resolve.
  split; intros [= Ht Hp].
  - apply (map_encoders_eq_transfer _ _ encodePartition_eq) in Hp.
    rewrite Ht, Hp. reflexivity.
  - apply (map_encoders_eq_transfer _ _ encodePartition_eq) in Hp.
    rewrite Ht, Hp. reflexivity.
Qed.

Lemma encodeForgottenTopics_eq (x1 x2 : FetchV9.ForgottenTopic.t) :
  FetchV9.encodeForgottenTopics x1 = FetchV9.encodeForgottenTopics x2
  <-> id x1 = id x2.
Proof.
  unfold FetchV9.encodeForgottenTopics, id.
  split; [|intros ->; reflexivity].
  destruct x1 as [t1 ps1], x2 as [t2 ps2]. simpl.
  intros [= -> Hp]. f_equal.
  revert ps2 Hp. induction ps1 as [|p ps1 IH]; intros [|q ps2] Hp;
    try discriminate; [reflexivity|].
  injection Hp as -> Hp. f_equal. apply IH. assumption.
Qed.

(** X24. Two parameter objects give the same writes exactly when they agree,
    once the defaults are filled in, on the nine properties the request
    destructures: a property left out encodes as its default written out,
    each of the nine shows in the encoding, and [rackId], which
    [Broker.fetch] passes with every request, is never written. *)
Theorem fetchV9_encode_eq (env : Env) (a1 a2 : FetchV9.Args) :
  FetchV9.encode (FetchV9.request env a1)
  = FetchV9.encode (FetchV9.request env a2)
  <-> FetchV9.resolve a1 = FetchV9.resolve a2.
Proof.
  unfold FetchV9.request, FetchV9.resolve. cbn [FetchV9.encode].
  split; intros H.
  - assert (Htop : map FetchV9.Topic.resolve (FetchV9.topics a1)
                   = map FetchV9.Topic.resolve (FetchV9.topics a2)).
    { apply (map_encoders_eq_transfer _ _ encodeTopic_eq). congruence. }
    assert (Hforg : map id (default [] (FetchV9.forgottenTopics a1))
                    = map id (default [] (FetchV9.forgottenTopics a2))).
    { apply (map_encoders_eq_transfer _ _ encodeForgottenTopics_eq).
      congruence. }
    rewrite !map_id in Hforg. congruence.
  - assert (Htop : map (fun x => inl (FetchV9.encodeTopic x)
                                 : list FetchV9.Write + Z)
                       (FetchV9.topics a1)
                   = map (fun x => inl (FetchV9.encodeTopic x))
                         (FetchV9.topics a2)).
    { apply (map_encoders_eq_transfer _ _ encodeTopic_eq). congruence. }
    assert (Hforg : default [] (FetchV9.forgottenTopics a1)
                    = default [] (FetchV9.forgottenTopics a2))
      by congruence.
    rewrite Htop, Hforg. congruence.
Qed.

(** The two objects differ in [rackId] and in what they leave to the
    defaults, and encode alike; a different [maxBytes] shows. *)
Lemma fetchV9_encode_eq_witness :
  FetchV9.encode (FetchV9.request env_quiet (v9_args false))
  = FetchV9.encode (FetchV9.request env_quiet (v9_args true))
  /\ FetchV9.rackId (v9_args false) <> FetchV9.rackId (v9_args true).
Proof.
  split; [|discriminate].
  apply (proj2 (fetchV9_encode_eq env_quiet (v9_args false) (v9_args true))).
  reflexivity.
Defined.
